(** * Auth request handlers of aionic-core

    A shallow embedding of [src/api/components/global/auth/controller.ts]
    (class [AuthController]) and the properties its specification states
    about it.

    The handlers are request/response glue over collaborator services.  The
    embedding keeps the JavaScript data as it is at run time: request bodies
    are JSON values, [!x] is truthiness, destructuring of [undefined] throws,
    and every handler runs inside [try { ... } catch (err) { next(err) }].
    [handleGitHubAuthCallback], which only relays the provider's answer, is
    not embedded. *)

From Stdlib Require Import Ascii.
From stdpp Require Import gmap strings list fin_maps pretty.
#[local] Set Warnings "-register-all".
Local Open Scope Z_scope.

(** ** JavaScript values *)

Module Js.

(** Values a request can carry: what a JSON body parser produces, plus
    [undefined].  Numbers are kept as integers; no handler computes with
    them, they are only tested for truthiness and compared. *)
Inductive JsVal :=
| JUndefined
| JNull
| JBool (b : bool)
| JNum (n : Z)
| JStr (s : string)
| JArr (l : list JsVal)
| JObj (o : gmap string JsVal).

(** What a [throw] carries.  [TypeError] is the engine's error for reading a
    property of [undefined] or [null]; [Thrown] is a rejection raised by a
    collaborator. *)
Inductive Err :=
| TypeError
| Thrown (e : JsVal).

(** [!!v] *)
Definition truthy (v : JsVal) : bool :=
  match v with
  | JUndefined | JNull => false
  | JBool b => b
  | JNum n => negb (n =? 0)
  | JStr s => negb (String.eqb s "")
  | JArr _ | JObj _ => true
  end.

(** [a === b].  Objects and arrays are equal only to themselves by
    reference; two values that reach a comparison here never share a
    reference (one comes from the request, the other from a store). *)
Definition strict_eq (a b : JsVal) : bool :=
  match a, b with
  | JUndefined, JUndefined => true
  | JNull, JNull => true
  | JBool x, JBool y => Bool.eqb x y
  | JNum x, JNum y => x =? y
  | JStr x, JStr y => String.eqb x y
  | _, _ => false
  end.

(** [o[k]] on an object: a missing key reads as [undefined]. *)
Definition get (o : gmap string JsVal) (k : string) : JsVal :=
  default JUndefined (o !! k).

(** [v.k] for the keys the handlers read ([user], [email], [password],
    [hash]): a [TypeError] on [undefined] and [null]; primitives and arrays
    carry none of these keys. *)
Definition prop (v : JsVal) (k : string) : Err + JsVal :=
  match v with
  | JUndefined | JNull => inl TypeError
  | JObj o => inr (get o k)
  | JBool _ | JNum _ | JStr _ | JArr _ => inr JUndefined
  end.

(** [const { k1, k2 } = v] *)
Definition destructure2 (v : JsVal) (k1 k2 : string) : Err + JsVal * JsVal :=
  match prop v k1, prop v k2 with
  | inr a, inr b => inr (a, b)
  | inl e, _ => inl e
  | _, inl e => inl e
  end.

(** The one-character strings of a string, for spreading it. *)
Fixpoint chars (s : string) : list JsVal :=
  match s with
  | EmptyString => []
  | String c s' => JStr (String c EmptyString) :: chars s'
  end.

Definition indexed (l : list JsVal) : gmap string JsVal :=
  list_to_map (imap (λ i v, (pretty i, v)) l).

(** [{ ...v }]: the own enumerable properties of [v].  Arrays and strings
    spread their indices, the other primitives spread nothing. *)
Definition spread (v : JsVal) : gmap string JsVal :=
  match v with
  | JObj o => o
  | JArr l => indexed l
  | JStr s => indexed (chars s)
  | JUndefined | JNull | JBool _ | JNum _ => ∅
  end.

End Js.
Export Js.

(** ** Node's [querystring] module *)

Module QueryString.
Local Open Scope N_scope.

Definition hex_digit (n : N) : ascii :=
  match n with
  | 0 => "0" | 1 => "1" | 2 => "2" | 3 => "3" | 4 => "4" | 5 => "5"
  | 6 => "6" | 7 => "7" | 8 => "8" | 9 => "9" | 10 => "A" | 11 => "B"
  | 12 => "C" | 13 => "D" | 14 => "E" | _ => "F"
  end%char.

Definition hex_value (c : ascii) : option N :=
  let n := N_of_ascii c in
  if (48 <=? n) && (n <=? 57) then Some (n - 48)
  else if (65 <=? n) && (n <=? 70) then Some (n - 55)
  else if (97 <=? n) && (n <=? 102) then Some (n - 87)
  else None.

(** The characters [querystring.escape] leaves alone: ASCII letters and
    digits and [- _ . ! ~ * ' ( )]. *)
Definition no_escape (c : ascii) : bool :=
  let n := N_of_ascii c in
  (48 <=? n) && (n <=? 57) || (65 <=? n) && (n <=? 90)
  || (97 <=? n) && (n <=? 122)
  || bool_decide (n ∈ [33; 39; 40; 41; 42; 45; 46; 95; 126]).

(** [querystring.escape]: every other byte of the (UTF-8) string becomes
    [%XX] with upper-case hexadecimal digits. *)
Fixpoint escape (s : string) : string :=
  match s with
  | EmptyString => EmptyString
  | String c s' =>
      if no_escape c then String c (escape s')
      else String "%" (String (hex_digit (N_of_ascii c / 16))
             (String (hex_digit (N_of_ascii c mod 16)) (escape s')))
  end.

(** [querystring.unescape]: [%XX] decodes to a byte; a [%] that is not
    followed by two hexadecimal digits stays as it is. *)
Fixpoint unescape (s : string) : string :=
  match s with
  | EmptyString => EmptyString
  | String c s' =>
      if Ascii.eqb c "%" then
        match s' with
        | String h (String l r) =>
            match hex_value h, hex_value l with
            | Some x, Some y => String (ascii_of_N (16 * x + y)) (unescape r)
            | _, _ => String c (unescape s')
            end
        | _ => String c (unescape s')
        end
      else String c (unescape s')
  end.

(** [querystring.stringify] of an object whose values are strings, the
    properties taken in their order: [k1=v1&k2=v2]. *)
Fixpoint stringify (o : list (string * string)) : string :=
  match o with
  | [] => ""
  | [(k, v)] => escape k +:+ "=" +:+ escape v
  | (k, v) :: o' => escape k +:+ "=" +:+ escape v +:+ "&" +:+ stringify o'
  end.

(** Whether the character occurs in the string. *)
Fixpoint occurs (c : ascii) (s : string) : bool :=
  match s with
  | EmptyString => false
  | String c' s' => Ascii.eqb c' c || occurs c s'
  end.

(** [str.split(sep)] for a one-character separator. *)
Fixpoint split (sep : ascii) (s : string) : list string :=
  match s with
  | EmptyString => [EmptyString]
  | String c s' =>
      if Ascii.eqb c sep then EmptyString :: split sep s'
      else match split sep s' with
           | x :: xs => String c x :: xs
           | [] => [String c EmptyString]
           end
  end.

(** One [key=value]: cut at the first [=]; without one the value is
    empty. *)
Fixpoint key_value (s : string) : string * string :=
  match s with
  | EmptyString => (EmptyString, EmptyString)
  | String c s' =>
      if Ascii.eqb c "=" then (EmptyString, s')
      else (String c (key_value s').1, (key_value s').2)
  end.

Fixpoint plus_to_space (s : string) : string :=
  match s with
  | EmptyString => EmptyString
  | String c s' =>
      String (if Ascii.eqb c "+" then " "%char else c) (plus_to_space s')
  end.

(** The parameters a query string carries, as the receiving side reads
    them: the string is cut at [&], each piece at its first [=], and both
    halves are decoded ([+] is a space, [%XX] a byte). *)
Definition parameters (query : string) : list (string * string) :=
  if String.eqb query "" then []
  else
    (λ kv, (unescape (plus_to_space (key_value kv).1),
            unescape (plus_to_space (key_value kv).2)))
    <$> List.filter (λ kv, negb (String.eqb kv "")) (split "&" query).

End QueryString.

(** ** Express requests and responses *)

(** The parts of an Express request the handlers read.  [req.params] is
    always an object; [req.body] is whatever the body parser left there and
    [req.user] whatever the authentication middleware attached, [undefined]
    when there is none. *)
Record Request := mkRequest {
  req_params : gmap string JsVal;
  req_body : JsVal;
  req_user : JsVal
}.

(** The response object on entry: only [res.statusCode] is ever read. *)
Record Res := mkRes { statusCode : Z }.

(** A response as Express creates it. *)
Definition new_res : Res := {| statusCode := 200 |}.

(** What a handler writes: [res.status(c).json(v)], [res.status(c).send()]
    or [res.redirect(c, url)]. *)
Inductive Reply :=
| Json (code : Z) (payload : JsVal)
| Send (code : Z)
| Redirect (code : Z) (location : string).

(** How a handler ends: a reply was written, or the error went to
    [next(err)]. *)
Inductive Outcome :=
| Sent (r : Reply)
| Next (e : Err).

Definition is_redirect (o : Outcome) : bool :=
  match o with
  | Sent (Redirect _ _) => true
  | _ => false
  end.

(** [{ status, error }] *)
Definition error_body (code : Z) (msg : string) : JsVal :=
  JObj {[ "status" := JNum code; "error" := JStr msg ]}.

(** ** Collaborators *)

(** [UserInvitation]: [{ email, hash }]. *)
Record UserInvitation := mkInvitation {
  inv_email : JsVal;
  inv_hash : JsVal
}.

(** The argument of [readUserInvitation]: [{ hash }] or [{ hash, email }]. *)
Record InvFilter := mkInvFilter {
  f_hash : JsVal;
  f_email : option JsVal
}.

(** Calls made to the collaborator services, in the order they are made. *)
Inductive Event :=
| UserRead (select : option (list string)) (where_ : list (string * JsVal))
| UserSave (u : gmap string JsVal)
| UserDelete (u : gmap string JsVal)
| InvitationRead (f : InvFilter)
| InvitationSave (i : UserInvitation)
| InvitationDelete (i : UserInvitation)
| CacheDelete (key : string)
| MailInvitation (email hash : JsVal)
| HashPassword (password : JsVal)
| VerifyPassword (password stored : JsVal)
| GenerateUuid
| CreateToken (id : JsVal).

(** Modelled from the spec: the state the collaborators own (user store,
    invitation store, cache, mail sender, token generator), none of which
    is part of the controller.  [users] and [invitations] are the stored
    rows, [user_seq] the next primary key of the user store, [cache] the
    cached values by key, [outbox] the invitation mails sent,
    [uuid_seq] how many tokens were generated, [trace] the calls made.
    The stores, the cache and the mail sender always answer; of the
    collaborators only hashing and verification can reject. *)
Record World := mkWorld {
  users : list (gmap string JsVal);
  user_seq : Z;
  invitations : list UserInvitation;
  cache : gmap string JsVal;
  outbox : list (JsVal * JsVal);
  uuid_seq : nat;
  trace : list Event
}.

Definition set_users (us : list (gmap string JsVal)) (w : World) : World :=
  mkWorld us (user_seq w) (invitations w) (cache w) (outbox w) (uuid_seq w) (trace w).
Definition set_user_seq (n : Z) (w : World) : World :=
  mkWorld (users w) n (invitations w) (cache w) (outbox w) (uuid_seq w) (trace w).
Definition set_invitations (invs : list UserInvitation) (w : World) : World :=
  mkWorld (users w) (user_seq w) invs (cache w) (outbox w) (uuid_seq w) (trace w).
Definition set_cache (c : gmap string JsVal) (w : World) : World :=
  mkWorld (users w) (user_seq w) (invitations w) c (outbox w) (uuid_seq w) (trace w).
Definition set_outbox (ms : list (JsVal * JsVal)) (w : World) : World :=
  mkWorld (users w) (user_seq w) (invitations w) (cache w) ms (uuid_seq w) (trace w).
Definition set_uuid_seq (n : nat) (w : World) : World :=
  mkWorld (users w) (user_seq w) (invitations w) (cache w) (outbox w) n (trace w).
Definition set_trace (t : list Event) (w : World) : World :=
  mkWorld (users w) (user_seq w) (invitations w) (cache w) (outbox w) (uuid_seq w) t.

(** Modelled from the spec: the credential utility, the token service, the
    mail validator and the configuration, which the controller imports
    ([UtilityService], [AuthService], [validator], [env]).  Hashing and
    verification are asynchronous and may reject; [generateUuid n] is the
    [n]-th token the generator hands out. *)
Class Services := {
  hashPassword : JsVal → Err + JsVal;
  verifyPassword : JsVal → JsVal → Err + bool;
  generateUuid : nat → string;
  createToken : JsVal → string;
  isEmail : string → bool;
  github_id : string
}.

(** ** Handlers as state-and-exception computations *)

(** An [async] body: it runs on the collaborators' state and either
    returns or throws; the state reached before a throw stays. *)
Definition M (A : Type) : Type := World → (Err + A) * World.

#[global] Instance M_ret : MRet M := λ A x w, (inr x, w).
#[global] Instance M_bind : MBind M := λ A B f m w,
  match m w with
  | (inl e, w') => (inl e, w')
  | (inr a, w') => f a w'
  end.

(** A value or a [throw] that does not depend on the state. *)
Definition lift {A} (r : Err + A) : M A := λ w, (r, w).

Definition gets {A} (f : World → A) : M A := λ w, (inr (f w), w).
Definition modify (f : World → World) : M unit := λ w, (inr (), f w).
Definition emit (e : Event) : M unit :=
  modify (λ w, set_trace (trace w ++ [e]) w).

(** [try { body } catch (err) { return next(err) }] *)
Definition try_next (body : M Reply) (w : World) : Outcome * World :=
  match body w with
  | (inr r, w') => (Sent r, w')
  | (inl e, w') => (Next e, w')
  end.

Section Controller.
Context `{Services}.

(** *** The stores, modelled from the spec *)

(** Modelled from the spec: a row satisfies [where] when each listed
    column holds the given value. *)
Definition where_matches (where_ : list (string * JsVal))
    (u : gmap string JsVal) : bool :=
  forallb (λ kv, strict_eq (get u kv.1) kv.2) where_.

(** Modelled from the spec: [select] keeps the listed columns of a row. *)
Definition project (select : option (list string))
    (u : gmap string JsVal) : gmap string JsVal :=
  match select with
  | None => u
  | Some ks => filter (λ kv, kv.1 ∈ ks) u
  end.

(** Modelled from the spec: user store, [read(filter) -> User | undefined]:
    the first stored user that satisfies [where]. *)
Definition userService_read (select : option (list string))
    (where_ : list (string * JsVal)) : M (option (gmap string JsVal)) :=
  emit (UserRead select where_);;
  us ← gets users;
  mret (project select <$> find (where_matches where_) us).

(** Modelled from the spec: user store, [save(partial) -> User]: the row is
    stored under the next primary key and returned with it. *)
Definition userService_save (u : gmap string JsVal) : M (gmap string JsVal) :=
  emit (UserSave u);;
  id ← gets user_seq;
  let row := <["id" := JNum id]> u in
  modify (λ w, set_user_seq (id + 1) (set_users (users w ++ [row]) w));;
  mret row.

(** Modelled from the spec: user store, [delete(User) -> void]: the rows
    with the user's primary key go. *)
Definition userService_delete (u : gmap string JsVal) : M unit :=
  emit (UserDelete u);;
  modify (λ w,
    set_users
      (List.filter (λ r, negb (strict_eq (get r "id") (get u "id"))) (users w))
      w).

(** Modelled from the spec: a stored invitation satisfies the filter when
    its hash, and its email when the filter has one, are the given ones. *)
Definition inv_matches (f : InvFilter) (i : UserInvitation) : bool :=
  strict_eq (inv_hash i) (f_hash f)
  && match f_email f with
     | None => true
     | Some e => strict_eq (inv_email i) e
     end.

(** Modelled from the spec: invitation store,
    [readUserInvitation(filter) -> UserInvitation | undefined]. *)
Definition userInvService_readUserInvitation (f : InvFilter)
    : M (option UserInvitation) :=
  emit (InvitationRead f);;
  invs ← gets invitations;
  mret (find (inv_matches f) invs).

(** Modelled from the spec: invitation store, [saveUserInvitation(inv)]. *)
Definition userInvService_saveUserInvitation (i : UserInvitation) : M unit :=
  emit (InvitationSave i);;
  modify (λ w, set_invitations (invitations w ++ [i]) w).

(** Modelled from the spec: two invitations are the same stored
    [{ email, hash }] when both fields agree. *)
Definition same_invitation (a b : UserInvitation) : bool :=
  strict_eq (inv_hash a) (inv_hash b) && strict_eq (inv_email a) (inv_email b).

(** Modelled from the spec: invitation store, [deleteUserInvitation(inv)]:
    the stored [{ email, hash }] is removed. *)
Definition userInvService_deleteUserInvitation (i : UserInvitation) : M unit :=
  emit (InvitationDelete i);;
  modify (λ w,
    set_invitations
      (List.filter (λ r, negb (same_invitation r i)) (invitations w)) w).

(** Modelled from the spec: cache, [delete(key)]. *)
Definition cacheService_delete (key : string) : M unit :=
  emit (CacheDelete key);;
  modify (λ w, set_cache (delete key (cache w)) w).

(** Modelled from the spec: mail sender, [sendUserInvitation(email, hash)].
    The sends modelled are those that succeed; a send that fails would
    propagate to [next] after the invitation was stored. *)
Definition authMailService_sendUserInvitation (email hash : JsVal) : M unit :=
  emit (MailInvitation email hash);;
  modify (λ w, set_outbox (outbox w ++ [(email, hash)]) w).

(** Modelled from the spec: credential utility, [hashPassword]. *)
Definition UtilityService_hashPassword (password : JsVal) : M JsVal :=
  emit (HashPassword password);;
  lift (hashPassword password).

(** Modelled from the spec: credential utility, [verifyPassword]. *)
Definition UtilityService_verifyPassword (password stored : JsVal) : M bool :=
  emit (VerifyPassword password stored);;
  lift (verifyPassword password stored).

(** Modelled from the spec: credential utility, [generateUuid]: each call
    hands out the next token. *)
Definition UtilityService_generateUuid : M string :=
  emit GenerateUuid;;
  n ← gets uuid_seq;
  modify (set_uuid_seq (S n));;
  mret (generateUuid n).

(** Modelled from the spec: token service, [createToken(userId) -> string]. *)
Definition authService_createToken (id : JsVal) : M string :=
  emit (CreateToken id);;
  mret (createToken id).

(** Modelled from the spec: [isEmail] of the [validator] package, which
    validates strings only and throws a [TypeError] on anything else. *)
Definition validator_isEmail (v : JsVal) : Err + bool :=
  match v with
  | JStr s => inr (isEmail s)
  | _ => inl TypeError
  end.

(** *** The controller *)

(** [getUserInvitation(hash, email?)], lines 299-305. *)
Definition getUserInvitation (hash email : JsVal) : M (option UserInvitation) :=
  userInvService_readUserInvitation
    (if strict_eq email JUndefined
     then {| f_hash := hash; f_email := None |}
     else {| f_hash := hash; f_email := Some email |}).

(** [signinUser], lines 36-67. *)
Definition signinUser (req : Request) (res : Res) : World → Outcome * World :=
  try_next (
    payload ← lift (prop (req_body req) "user");
    '(email, password) ← lift (destructure2 payload "email" "password");
    if negb (truthy email) || negb (truthy password) then
      mret (Json 400 (error_body 400 "Invalid request"))
    else
      user ← userService_read
               (Some ["id"; "email"; "firstname"; "lastname"; "password"])
               [("email", email); ("active", JBool true)];
      match user with
      | None => mret (Json 401 (error_body 401 "Wrong email or password"))
      | Some user =>
          ok ← UtilityService_verifyPassword password (get user "password");
          if negb ok then
            mret (Json 401 (error_body 401 "Wrong email or password"))
          else
            token ← authService_createToken (get user "id");
            let user := delete "password" user in
            mret (Json (statusCode res)
                    (JObj {[ "status" := JNum (statusCode res);
                             "data" := JObj {[ "user" := JObj user;
                                               "token" := JStr token ]} ]}))
      end).

(** [validateRegistrationHash], lines 78-91. *)
Definition validateRegistrationHash (req : Request) (res : Res)
    : World → Outcome * World :=
  try_next (
    let hash := get (req_params req) "hash" in
    if negb (truthy hash) then
      mret (Json 400 (error_body 400 "Invalid request"))
    else
      invitation ← getUserInvitation hash JUndefined;
      match invitation with
      | Some _ => mret (Send 204)
      | None => mret (Json 403 (error_body 403 "Invalid hash"))
      end).

(** Lines 129-142 of [registerUser]: the new user is saved, the user cache
    cleared and the password deleted from the object [save] returned. *)
Definition register_newUser (req : Request) (password : JsVal)
    : M (gmap string JsVal) :=
  payload ← lift (prop (req_body req) "user");
  hashed ← UtilityService_hashPassword password;
  newUser ← userService_save
              (<["userRole" := JObj {[ "id" := JNum 1; "name" := JStr "User" ]}]>
                 (<["password" := hashed]> (spread payload)));
  cacheService_delete "user";;
  mret (delete "password" newUser).

(** [registerUser], lines 102-151. *)
Definition registerUser (req : Request) (res : Res) : World → Outcome * World :=
  try_next (
    let hash := get (req_params req) "hash" in
    payload ← lift (prop (req_body req) "user");
    '(email, password) ← lift (destructure2 payload "email" "password");
    invalid ← (if negb (truthy email) then mret true
               else payload' ← lift (prop (req_body req) "user");
                    mret (negb (truthy payload')));
    if (invalid : bool) then
      mret (Json 400 (error_body 400 "Invalid request"))
    else
      invitation ← getUserInvitation hash email;
      match invitation with
      | None => mret (Json 403 (error_body 403 "Invalid hash"))
      | Some invitation =>
          user ← userService_read None [("email", email)];
          match user with
          | Some _ => mret (Json 400 (error_body 400 "Email is already taken"))
          | None =>
              newUser ← register_newUser req password;
              userInvService_deleteUserInvitation invitation;;
              mret (Send 204)
          end
      end).

(** [createUserInvitation], lines 162-195. *)
Definition createUserInvitation (req : Request) (res : Res)
    : World → Outcome * World :=
  try_next (
    email ← lift (prop (req_body req) "email");
    invalid ← (if negb (truthy email) then mret true
               else valid ← lift (validator_isEmail email);
                    mret (negb valid));
    if (invalid : bool) then
      mret (Json 400 (error_body 400 "Invalid request"))
    else
      user ← userService_read None [("email", email)];
      match user with
      | Some _ => mret (Json 400 (error_body 400 "Email is already taken"))
      | None =>
          hash ← UtilityService_generateUuid;
          userInvService_saveUserInvitation
            {| inv_email := email; inv_hash := JStr hash |};;
          to ← lift (prop (req_body req) "email");
          authMailService_sendUserInvitation to (JStr hash);;
          mret (Send 204)
      end).

(** [unregisterUser], lines 206-234. *)
Definition unregisterUser (req : Request) (res : Res)
    : World → Outcome * World :=
  try_next (
    email ← lift (prop (req_user req) "email");
    if negb (truthy email) then
      mret (Json 400 (error_body 400 "Invalid request"))
    else
      user ← userService_read None [("email", email)];
      match user with
      | None => mret (Json 404 (error_body 404 "User not found"))
      | Some user =>
          userService_delete user;;
          cacheService_delete "user";;
          mret (Send 204)
      end).

(** The provider's authorization endpoint. *)
Definition github_authorize : string :=
  "https://github.com/login/oauth/authorize".

(** [handleGitHubAuth], lines 243-257. *)
Definition handleGitHubAuth (req : Request) (res : Res)
    : World → Outcome * World :=
  try_next (
    let url := github_authorize +:+ "?"
               +:+ QueryString.stringify
                     [("client_id", github_id); ("scope", "user:email")] in
    mret (Json (statusCode res)
            (JObj {[ "data" := JStr url;
                     "status" := JNum (statusCode res) ]}))).

End Controller.

(** ** Vocabulary of the specification *)

(** [req.body.user] followed by [const { email, password } = ...]. *)
Definition credentials_of (req : Request) : Err + JsVal * JsVal :=
  match prop (req_body req) "user" with
  | inl e => inl e
  | inr payload => destructure2 payload "email" "password"
  end.

(** The body has no [user] to destructure: there is no body, the key is
    missing, or it holds [null]. *)
Definition lacks_user (body : JsVal) : bool :=
  match prop body "user" with
  | inl _ | inr JUndefined | inr JNull => true
  | inr _ => false
  end.

(** The state after the calls [es] were recorded. *)
Definition add_trace (es : list Event) (w : World) : World :=
  set_trace (trace w ++ es) w.

(** The columns [signinUser] selects. *)
Definition signin_select : list string :=
  ["id"; "email"; "firstname"; "lastname"; "password"].

(** The user [signinUser] looks up: the first active user with the email. *)
Definition active_user (w : World) (email : JsVal)
    : option (gmap string JsVal) :=
  find (where_matches [("email", email); ("active", JBool true)]) (users w).

(** The user the other handlers look up: the first one with the email,
    active or not. *)
Definition owner (w : World) (email : JsVal) : option (gmap string JsVal) :=
  find (where_matches [("email", email)]) (users w).

(** The invitation [registerUser] looks up, by hash and email. *)
Definition invitation_for (w : World) (hash email : JsVal)
    : option UserInvitation :=
  find (inv_matches {| f_hash := hash; f_email := Some email |})
    (invitations w).

(** The invitation [validateRegistrationHash] looks up, by hash alone. *)
Definition invitation_by_hash (w : World) (hash : JsVal)
    : option UserInvitation :=
  find (inv_matches {| f_hash := hash; f_email := None |}) (invitations w).

(** The role every new user gets. *)
Definition default_role : JsVal :=
  JObj {[ "id" := JNum 1; "name" := JStr "User" ]}.

(** What [registerUser] hands to [save]: the supplied fields with the hashed
    password and the role. *)
Definition new_user_fields (o : gmap string JsVal) (hashed : JsVal)
    : gmap string JsVal :=
  <["userRole" := default_role]> (<["password" := hashed]> o).

(** The row the store keeps for it. *)
Definition new_user_row (w : World) (o : gmap string JsVal) (hashed : JsVal)
    : gmap string JsVal :=
  <["id" := JNum (user_seq w)]> (new_user_fields o hashed).

(** The state when [registerUser] has looked up the invitation and the
    owner of the email. *)
Definition after_lookups (hash email : JsVal) (w : World) : World :=
  add_trace [InvitationRead {| f_hash := hash; f_email := Some email |};
             UserRead None [("email", email)]] w.

(** The state when the new user is saved and the user cache cleared. *)
Definition after_save (hash : JsVal) (o : gmap string JsVal) (hashed : JsVal)
    (w : World) : World :=
  add_trace [HashPassword (get o "password");
             UserSave (new_user_fields o hashed); CacheDelete "user"]
    (set_cache (delete "user" (cache w))
       (set_user_seq (user_seq w + 1)
          (set_users (users w ++ [new_user_row w o hashed])
             (after_lookups hash (get o "email") w)))).

(** The state when the invitation is deleted as well. *)
Definition after_register (hash : JsVal) (o : gmap string JsVal)
    (hashed : JsVal) (inv : UserInvitation) (w : World) : World :=
  add_trace [InvitationDelete inv]
    (set_invitations
       (List.filter (λ r, negb (same_invitation r inv)) (invitations w))
       (after_save hash o hashed w)).

(** The URL [handleGitHubAuth] returns. *)
Definition authorize_query `{Services} : string :=
  "client_id=" +:+ QueryString.escape github_id +:+ "&scope=user%3Aemail".

(** The state when [createUserInvitation] has stored and mailed the
    invitation for [email]. *)
Definition after_invite `{Services} (email : JsVal) (w : World) : World :=
  add_trace [UserRead None [("email", email)]; GenerateUuid;
             InvitationSave {| inv_email := email;
                               inv_hash := JStr (generateUuid (uuid_seq w)) |};
             MailInvitation email (JStr (generateUuid (uuid_seq w)))]
    (set_outbox (outbox w ++ [(email, JStr (generateUuid (uuid_seq w)))])
       (set_invitations
          (invitations w ++
             [{| inv_email := email;
                 inv_hash := JStr (generateUuid (uuid_seq w)) |}])
          (set_uuid_seq (S (uuid_seq w)) w))).

(** Nothing was written: the stores, the cache, the outbox and the two
    counters of [w'] are those of [w]; only the record of calls may have
    grown. *)
Definition stores_kept (w w' : World) : Prop :=
  users w' = users w ∧ user_seq w' = user_seq w
  ∧ invitations w' = invitations w ∧ cache w' = cache w
  ∧ outbox w' = outbox w ∧ uuid_seq w' = uuid_seq w.

(** Every stored user with the address has the primary key of [u]: the
    address belongs to one account. *)
Definition one_account (email : JsVal) (u : gmap string JsVal)
    (us : list (gmap string JsVal)) : bool :=
  forallb (λ r, implb (where_matches [("email", email)] r)
                  (strict_eq (get r "id") (get u "id"))) us.

(** No two stored users share an email. *)
Fixpoint distinct_emails (us : list (gmap string JsVal)) : bool :=
  match us with
  | [] => true
  | u :: rest =>
      negb (existsb (λ r, strict_eq (get r "email") (get u "email")) rest)
      && distinct_emails rest
  end.

(** ** A concrete deployment, to run the handlers on *)

Module Sample.

Fixpoint has_at (s : string) : bool :=
  match s with
  | EmptyString => false
  | String c s' => Ascii.eqb c "@" || has_at s'
  end.

(** A credential utility that tags a password instead of hashing it, a
    counter for tokens, and a mail check that looks for an at sign. *)
Definition services : Services := {|
  hashPassword v :=
    match v with
    | JStr s => inr (JStr ("hashed:" +:+ s))
    | _ => inl (Thrown (JStr "data and salt arguments required"))
    end;
  verifyPassword p h :=
    match p, h with
    | JStr a, JStr b => inr (String.eqb ("hashed:" +:+ a) b)
    | _, _ => inl (Thrown (JStr "data and hash arguments required"))
    end;
  generateUuid n := "uuid-" +:+ pretty n;
  createToken id :=
    match id with
    | JNum n => "jwt-" +:+ pretty n
    | _ => "jwt"
    end;
  isEmail := has_at;
  github_id := "Iv1.8a61f9b3a7aba766"
|}.

Definition empty_world : World :=
  {| users := []; user_seq := 1; invitations := []; cache := ∅;
     outbox := []; uuid_seq := 0; trace := [] |}.

(** A stored, active user with password [p1]. *)
Definition alice : gmap string JsVal :=
  {[ "id" := JNum 7; "email" := JStr "a@x.com"; "firstname" := JStr "Al";
     "lastname" := JStr "Ice"; "password" := JStr "hashed:p1";
     "active" := JBool true; "phone" := JStr "555" ]}.

Definition invitation_b : UserInvitation :=
  {| inv_email := JStr "b@x.com"; inv_hash := JStr "h-b" |}.

(** One user, one open invitation for another address, a cached listing. *)
Definition world1 : World :=
  {| users := [alice]; user_seq := 8; invitations := [invitation_b];
     cache := {[ "user" := JArr [JObj alice] ]};
     outbox := []; uuid_seq := 3; trace := [] |}.

Definition invitation_a : UserInvitation :=
  {| inv_email := JStr "a@x.com"; inv_hash := JStr "h-a" |}.

(** The same, with an open invitation for the address the user owns. *)
Definition world2 : World :=
  {| users := [alice]; user_seq := 8;
     invitations := [invitation_a; invitation_b];
     cache := ∅; outbox := []; uuid_seq := 3; trace := [] |}.

Definition credentials (email password : string) : JsVal :=
  JObj {[ "user" := JObj {[ "email" := JStr email;
                            "password" := JStr password ]} ]}.

Definition request (hash : string) (body : JsVal) : Request :=
  {| req_params := {[ "hash" := JStr hash ]}; req_body := body;
     req_user := JUndefined |}.

(** The [user] object of [credentials]. *)
Definition payload (email password : string) : gmap string JsVal :=
  {[ "email" := JStr email; "password" := JStr password ]}.

(** A request of the authenticated user with the given email. *)
Definition as_user (email : string) : Request :=
  {| req_params := ∅; req_body := JUndefined;
     req_user := JObj {[ "email" := JStr email ]} |}.

(** A request to invite the given address. *)
Definition invite (email : JsVal) : Request :=
  {| req_params := ∅; req_body := JObj {[ "email" := email ]};
     req_user := JUndefined |}.

(** A registration payload without a password. *)
Definition no_password (email : string) : JsVal :=
  JObj {[ "user" := JObj {[ "email" := JStr email ]} ]}.

(** A stored user whose password hash the utility cannot read. *)
Definition broken : gmap string JsVal :=
  {[ "id" := JNum 9; "email" := JStr "k@x.com"; "active" := JBool true ]}.

(** A store that holds only that user. *)
Definition world3 : World :=
  {| users := [broken]; user_seq := 10; invitations := []; cache := ∅;
     outbox := []; uuid_seq := 0; trace := [] |}.

End Sample.

(** ** Running a handler symbolically *)

Ltac run :=
  unfold signinUser, validateRegistrationHash, registerUser, register_newUser,
    createUserInvitation, unregisterUser, handleGitHubAuth, getUserInvitation,
    userService_read, userService_save, userService_delete,
    userInvService_readUserInvitation, userInvService_saveUserInvitation,
    userInvService_deleteUserInvitation, cacheService_delete,
    authMailService_sendUserInvitation, UtilityService_hashPassword,
    UtilityService_verifyPassword, UtilityService_generateUuid,
    authService_createToken, try_next, emit, modify, gets, lift,
    mbind, M_bind, mret, M_ret, credentials_of, add_trace in *.

(** Case analysis on whatever a handler still branches on. *)
Ltac innermost x :=
  lazymatch x with
  | context [match ?y with _ => _ end] => innermost y
  | _ => destruct x eqn:?
  end.
Ltac branches :=
  repeat (match goal with
          | |- context [match ?x with _ => _ end] => innermost x
          end; cbn).

(** ** Properties *)

(** *** JavaScript values *)

Lemma strict_eq_sym a b : strict_eq a b = strict_eq b a.
Proof.
  destruct a, b; simpl; try reflexivity.
  - by destruct b, b0.
  - apply Z.eqb_sym.
  - apply String.eqb_sym.
Qed.

Lemma strict_eq_eq a b : strict_eq a b = true → a = b.
Proof.
  destruct a, b; simpl; try discriminate; try reflexivity.
  - intros E. apply Bool.eqb_prop in E. by subst.
  - intros E. apply Z.eqb_eq in E. by subst.
  - intros E. apply String.eqb_eq in E. by subst.
Qed.

Lemma strict_eq_trans a b c :
  strict_eq a b = true → strict_eq b c = true → strict_eq a c = true.
Proof. intros Hab Hbc. apply strict_eq_eq in Hab. by subst. Qed.

Lemma get_project (ks : list string) (u : gmap string JsVal) k :
  k ∈ ks → get (project (Some ks) u) k = get u k.
Proof.
  intros Hk. unfold get, project.
  destruct (u !! k) as [v|] eqn:E.
  - erewrite (proj2 (map_lookup_filter_Some _ _ _ _)); [done|]. by split.
  - by rewrite map_lookup_filter_None_2; [|left].
Qed.

Lemma set_trace_twice t t' w : set_trace t (set_trace t' w) = set_trace t w.
Proof. by destruct w. Qed.

Lemma truthy_defined e : truthy e = true → strict_eq e JUndefined = false.
Proof. by destruct e. Qed.

(** Once an invitation found by hash and email is deleted, the store holds
    none for that hash and email. *)
Lemma find_deleted_invitation hash email inv (l : list UserInvitation) :
  find (inv_matches {| f_hash := hash; f_email := Some email |}) l = Some inv →
  find (inv_matches {| f_hash := hash; f_email := Some email |})
    (List.filter (λ r, negb (same_invitation r inv)) l) = None.
Proof.
  intros Hf. apply find_some in Hf as [_ Hm].
  unfold inv_matches in Hm. cbn in Hm.
  apply andb_true_iff in Hm as [Hh He].
  apply strict_eq_eq in Hh as Hh', He as He'.
  induction l as [|r l IH]; [done|]. cbn.
  destruct (same_invitation r inv) eqn:Es; cbn; [exact IH|].
  unfold inv_matches at 1. cbn.
  destruct (strict_eq (inv_hash r) hash) eqn:Eh; cbn; [|exact IH].
  destruct (strict_eq (inv_email r) email) eqn:Ee; cbn; [|exact IH].
  unfold same_invitation in Es. rewrite Hh', He', Eh, Ee in Es. discriminate.
Qed.

(** *** Query strings *)

Lemma hex_digits_of_byte c :
  QueryString.hex_value (QueryString.hex_digit (N_of_ascii c / 16))
    = Some (N_of_ascii c / 16)%N
  ∧ QueryString.hex_value (QueryString.hex_digit (N_of_ascii c mod 16))
    = Some (N_of_ascii c mod 16)%N
  ∧ ascii_of_N (16 * (N_of_ascii c / 16) + N_of_ascii c mod 16) = c.
Proof. destruct c as [[] [] [] [] [] [] [] []]; by vm_compute. Qed.

Lemma no_escape_plain c :
  QueryString.no_escape c = true →
  Ascii.eqb c "%" = false ∧ Ascii.eqb c "&" = false
  ∧ Ascii.eqb c "+" = false ∧ Ascii.eqb c "=" = false.
Proof. destruct c as [[] [] [] [] [] [] [] []]; by vm_compute. Qed.

Lemma hex_digit_plain n :
  let d := QueryString.hex_digit n in
  Ascii.eqb d "&" = false ∧ Ascii.eqb d "+" = false ∧ Ascii.eqb d "=" = false.
Proof.
  destruct n as [|p]; [done|].
  do 4 (destruct p as [p|p|]; try done).
Qed.

(** Decoding undoes [escape]. *)
Lemma unescape_escape s : QueryString.unescape (QueryString.escape s) = s.
Proof.
  induction s as [|c s IH]; [done|]. cbn [QueryString.escape].
  destruct (QueryString.no_escape c) eqn:E.
  - apply no_escape_plain in E as (E & _). cbn [QueryString.unescape].
    by rewrite E, IH.
  - destruct (hex_digits_of_byte c) as (Hh & Hl & Hc).
    cbn [QueryString.unescape]. cbn [Ascii.eqb Bool.eqb].
    by rewrite Hh, Hl, Hc, IH.
Qed.

(** An escaped string has no [+] to turn into a space. *)
Lemma plus_to_space_escape s :
  QueryString.plus_to_space (QueryString.escape s) = QueryString.escape s.
Proof.
  induction s as [|c s IH]; [done|]. cbn [QueryString.escape].
  destruct (QueryString.no_escape c) eqn:E.
  - apply no_escape_plain in E as (_ & _ & E & _).
    cbn [QueryString.plus_to_space]. by rewrite E, IH.
  - cbn [QueryString.plus_to_space].
    destruct (hex_digit_plain (N_of_ascii c / 16)) as (_ & -> & _).
    destruct (hex_digit_plain (N_of_ascii c mod 16)) as (_ & -> & _).
    by rewrite IH.
Qed.

Lemma append_String c (s t : string) : String c s +:+ t = String c (s +:+ t).
Proof. reflexivity. Qed.

Lemma append_empty (s : string) : s +:+ "" = s.
Proof. induction s as [|c s IH]; [done|]. by rewrite append_String, IH. Qed.

(** A split goes through a piece that has no separator in it. *)
Lemma split_prefix sep (p rest : string) :
  QueryString.occurs sep p = false →
  QueryString.split sep (p +:+ rest) =
    match QueryString.split sep rest with
    | x :: xs => (p +:+ x) :: xs
    | [] => [p]
    end.
Proof.
  assert (Hne : ∀ r, QueryString.split sep r ≠ []).
  { intros r. destruct r as [|c r]; [done|]. simpl.
    destruct (Ascii.eqb c sep); [done|].
    by destruct (QueryString.split sep r). }
  destruct (QueryString.split sep rest) as [|x xs] eqn:E; [by apply Hne in E|].
  induction p as [|c p IH]; [intros _; exact E|].
  rewrite append_String. simpl.
  destruct (Ascii.eqb c sep); [done|].
  intros Hp. rewrite (IH Hp). by rewrite append_String.
Qed.

(** An escaped string has no [&]. *)
Lemma escape_no_ampersand s :
  QueryString.occurs "&" (QueryString.escape s) = false.
Proof.
  induction s as [|c s IH]; [done|]. simpl.
  destruct (QueryString.no_escape c) eqn:E; simpl.
  - apply no_escape_plain in E as (_ & E & _). by rewrite E.
  - destruct (hex_digit_plain (N_of_ascii c / 16)) as (Eh & _).
    destruct (hex_digit_plain (N_of_ascii c mod 16)) as (El & _).
    by rewrite Eh, El.
Qed.

(** The query string of the authorization URL carries the client id and
    the scope. *)
Lemma authorize_parameters `{Services} :
  QueryString.parameters authorize_query =
    [("client_id", github_id); ("scope", "user:email")].
Proof.
  unfold authorize_query, QueryString.parameters.
  change ("client_id=" +:+ QueryString.escape github_id +:+ "&scope=user%3Aemail")
    with (("client_id=" +:+ QueryString.escape github_id) +:+ "&scope=user%3Aemail").
  rewrite split_prefix by (simpl; apply escape_no_ampersand).
  simpl. rewrite append_empty.
  change ("" +:+ QueryString.escape github_id)
    with (QueryString.escape github_id).
  by rewrite plus_to_space_escape, unescape_escape.
Qed.

(** *** The handlers *)

Section Properties.
Context `{Services}.

#[local] Arguments project : simpl never.
#[local] Arguments get : simpl never.

(** C10.  A sign-in whose body has no [user] never reaches the check for
    empty fields, so it is not answered with 400: reading the credentials
    throws, the error goes to [next] as it is, and the state of the
    collaborators, the record of calls included, is the one before. *)
Theorem signinUser_without_user (req : Request) (res : Res) (w : World) :
  lacks_user (req_body req) = true →
  credentials_of req = inl TypeError
  ∧ signinUser req res w = (Next TypeError, w).
Proof.
  unfold lacks_user. run.
  destruct (prop (req_body req) "user") as [e|p] eqn:E.
  - intros _. destruct (req_body req); simpl in E; by simplify_eq.
  - destruct p; try discriminate; intros _; by cbn.
Qed.

(** C3.  A sign-in with a non-empty email and password: when the store
    holds an active user with the email and the password verifies, the
    reply is 200 with a token made for the user's id and the user without
    its password; when there is no such user, or the password does not
    verify, the reply is 401 with the same message. *)
Theorem signinUser_spec (req : Request) (w : World) (email password : JsVal) :
  credentials_of req = inr (email, password) →
  truthy email = true →
  truthy password = true →
  let read := UserRead (Some signin_select)
                [("email", email); ("active", JBool true)] in
  let wrong := Sent (Json 401 (error_body 401 "Wrong email or password")) in
  (∀ u, active_user w email = Some u →
        verifyPassword password (get u "password") = inr true →
        let sent := delete "password" (project (Some signin_select) u) in
        signinUser req new_res w =
          (Sent (Json 200
             (JObj {[ "status" := JNum 200;
                      "data" := JObj {[ "user" := JObj sent;
                                        "token" := JStr (createToken (get u "id")) ]} ]})),
           add_trace [read; VerifyPassword password (get u "password");
                      CreateToken (get u "id")] w)
        ∧ sent !! "password" = None
        ∧ (∀ k, k ∈ ["id"; "email"; "firstname"; "lastname"] →
                get sent k = get u k))
  ∧ (active_user w email = None →
     signinUser req new_res w = (wrong, add_trace [read] w))
  ∧ (∀ u, active_user w email = Some u →
          verifyPassword password (get u "password") = inr false →
          signinUser req new_res w =
            (wrong,
             add_trace [read; VerifyPassword password (get u "password")] w)).
Proof.
  intros Hc He Hp read wrong. subst read wrong.
  unfold active_user, signin_select. run.
  destruct (prop (req_body req) "user") as [e|payload]; [discriminate|].
  rewrite Hc, He, Hp. cbn.
  assert (Hpw : ∀ u, get (project (Some signin_select) u) "password"
                     = get u "password").
  { intros u. apply get_project. set_solver. }
  assert (Hid : ∀ u, get (project (Some signin_select) u) "id" = get u "id").
  { intros u. apply get_project. set_solver. }
  unfold signin_select in Hpw, Hid.
  split; [|split].
  - intros u Hu Hv. rewrite Hu. cbn. rewrite Hpw, Hv. cbn. rewrite Hid.
    split; [|split].
    + f_equal. destruct w; unfold set_trace; cbn. by rewrite <- !app_assoc.
    + apply lookup_delete_eq.
    + intros k Hk.
      assert (Hne : "password" ≠ k).
      { intros <-. repeat (apply elem_of_cons in Hk as [Hk|Hk]; [done|]).
        by apply elem_of_nil in Hk. }
      unfold get at 1. rewrite lookup_delete_ne by done.
      apply (get_project _ u k).
      rewrite !elem_of_cons in Hk. rewrite !elem_of_cons. tauto.
  - intros Hu. rewrite Hu. cbn. done.
  - intros u Hu Hv. rewrite Hu. cbn. rewrite Hpw, Hv. cbn.
    f_equal. destruct w; unfold set_trace; cbn. by rewrite <- !app_assoc.
Qed.

(** C8.  Validating an invitation hash: an empty hash is answered with
    400 and nothing is called; otherwise the invitation store is asked once,
    with the hash alone, and the reply is 204 without a body when it holds
    such an invitation and 403 when it does not. *)
Theorem validateRegistrationHash_spec (req : Request) (res : Res) (w : World) :
  let hash := get (req_params req) "hash" in
  let read := InvitationRead {| f_hash := hash; f_email := None |} in
  (truthy hash = false →
   validateRegistrationHash req res w =
     (Sent (Json 400 (error_body 400 "Invalid request")), w))
  ∧ (truthy hash = true →
     ∀ i, invitation_by_hash w hash = Some i →
          validateRegistrationHash req res w =
            (Sent (Send 204), add_trace [read] w))
  ∧ (truthy hash = true →
     invitation_by_hash w hash = None →
     validateRegistrationHash req res w =
       (Sent (Json 403 (error_body 403 "Invalid hash")), add_trace [read] w)).
Proof.
  intros hash read. subst read. unfold invitation_by_hash. run. cbn.
  fold hash. repeat split.
  - by intros ->.
  - intros -> i Hi. cbn. by rewrite Hi.
  - intros -> Hi. cbn. by rewrite Hi.
Qed.

(** C7.  Unregistering with an email on the authenticated principal: when
    no stored user has the email the reply is 404 and the stores, the cache
    and the outbox stay as they were; when one has, its rows are deleted
    from the user store, cache key [user] is cleared and the reply is
    204. *)
Theorem unregisterUser_spec (req : Request) (res : Res) (w : World)
    (email : JsVal) :
  prop (req_user req) "email" = inr email →
  truthy email = true →
  let read := UserRead None [("email", email)] in
  (owner w email = None →
   unregisterUser req res w =
     (Sent (Json 404 (error_body 404 "User not found")), add_trace [read] w))
  ∧ (∀ u, owner w email = Some u →
          let kept := List.filter
                        (λ r, negb (strict_eq (get r "id") (get u "id")))
                        (users w) in
          unregisterUser req res w =
            (Sent (Send 204),
             add_trace [read; UserDelete u; CacheDelete "user"]
               (set_cache (delete "user" (cache w)) (set_users kept w)))
          ∧ Forall (λ r, strict_eq (get r "id") (get u "id") = false) kept
          ∧ delete "user" (cache w) !! "user" = None).
Proof.
  intros He Ht read. subst read. unfold owner. run.
  rewrite He. cbn. rewrite Ht. cbn. split.
  - by intros ->.
  - intros u ->. cbn. repeat split.
    + destruct w; unfold set_trace, set_cache, set_users; cbn.
      by rewrite <- !app_assoc.
    + apply Forall_forall. intros r Hr. apply list_elem_of_In in Hr.
      apply filter_In in Hr as [_ Hr]. by apply negb_true_iff in Hr.
    + apply lookup_delete_eq.
Qed.



(** The three ways [registerUser] ends once the payload carries an email. *)
Lemma register_run_no_invitation (req : Request) (res : Res) (w : World)
    (o : gmap string JsVal) :
  prop (req_body req) "user" = inr (JObj o) →
  truthy (get o "email") = true →
  invitation_for w (get (req_params req) "hash") (get o "email") = None →
  registerUser req res w =
    (Sent (Json 403 (error_body 403 "Invalid hash")),
     add_trace [InvitationRead {| f_hash := get (req_params req) "hash";
                                  f_email := Some (get o "email") |}] w).
Proof.
  intros Hb Ht Hi. unfold invitation_for in Hi. run.
  rewrite Hb. cbn. rewrite Ht. cbn. rewrite (truthy_defined _ Ht). cbn.
  by rewrite Hi.
Qed.

Lemma register_run_taken (req : Request) (res : Res) (w : World)
    (o u : gmap string JsVal) (inv : UserInvitation) :
  prop (req_body req) "user" = inr (JObj o) →
  truthy (get o "email") = true →
  invitation_for w (get (req_params req) "hash") (get o "email") = Some inv →
  owner w (get o "email") = Some u →
  registerUser req res w =
    (Sent (Json 400 (error_body 400 "Email is already taken")),
     after_lookups (get (req_params req) "hash") (get o "email") w).
Proof.
  intros Hb Ht Hi Ho. unfold invitation_for, owner, after_lookups in *. run.
  rewrite Hb. cbn. rewrite Ht. cbn. rewrite (truthy_defined _ Ht). cbn.
  rewrite Hi. cbn. rewrite Ho. cbn.
  destruct w; unfold set_trace; cbn. by rewrite <- !app_assoc.
Qed.

Lemma register_run_newUser (req : Request) (w : World)
    (o : gmap string JsVal) (hashed : JsVal) :
  prop (req_body req) "user" = inr (JObj o) →
  hashPassword (get o "password") = inr hashed →
  let hash := get (req_params req) "hash" in
  register_newUser req (get o "password")
    (after_lookups hash (get o "email") w) =
    (inr (delete "password" (new_user_row w o hashed)),
     after_save hash o hashed w).
Proof.
  intros Hb Hh hash. subst hash.
  unfold after_save, after_lookups, new_user_row, new_user_fields,
    default_role.
  run. rewrite Hb. cbn. rewrite Hh. cbn.
  destruct w; unfold set_trace, set_cache, set_user_seq, set_users; cbn.
  by rewrite <- !app_assoc.
Qed.

Lemma register_run_success (req : Request) (res : Res) (w : World)
    (o : gmap string JsVal) (inv : UserInvitation) (hashed : JsVal) :
  prop (req_body req) "user" = inr (JObj o) →
  truthy (get o "email") = true →
  invitation_for w (get (req_params req) "hash") (get o "email") = Some inv →
  owner w (get o "email") = None →
  hashPassword (get o "password") = inr hashed →
  registerUser req res w =
    (Sent (Send 204),
     after_register (get (req_params req) "hash") o hashed inv w).
Proof.
  intros Hb Ht Hi Ho Hh.
  pose proof (register_run_newUser req w o hashed Hb Hh) as Hnew.
  cbn zeta in Hnew. unfold invitation_for, owner in *.
  unfold registerUser, getUserInvitation, userInvService_readUserInvitation,
    userService_read, userInvService_deleteUserInvitation, try_next, emit,
    modify, gets, lift, mbind, M_bind, mret, M_ret.
  rewrite Hb. cbn. rewrite Ht. cbn. rewrite (truthy_defined _ Ht). cbn.
  rewrite Hi. cbn. rewrite Ho. cbn.
  rewrite set_trace_twice.
  replace (set_trace _ w)
    with (after_lookups (get (req_params req) "hash") (get o "email") w).
  2:{ unfold after_lookups, add_trace. by rewrite <- !app_assoc. }
  by rewrite Hnew.
Qed.

(** C5.  The success path of registration: with an invitation stored for
    the hash and email, no stored user owning the email and the password
    hashed, the handler reads the invitation and the user, hashes the
    password, saves the supplied fields with the hashed password and the
    role [{ id: 1, name: User }], clears cache key [user], removes the
    password from the object the save returned, deletes the invitation and
    replies 204; these six calls are the only ones made. *)
Theorem registerUser_success (req : Request) (res : Res) (w : World)
    (o : gmap string JsVal) (inv : UserInvitation) (hashed : JsVal) :
  prop (req_body req) "user" = inr (JObj o) →
  truthy (get o "email") = true →
  let hash := get (req_params req) "hash" in
  let email := get o "email" in
  let password := get o "password" in
  invitation_for w hash email = Some inv →
  owner w email = None →
  hashPassword password = inr hashed →
  let row := new_user_row w o hashed in
  let w' := after_register hash o hashed inv w in
  register_newUser req password (after_lookups hash email w) =
    (inr (delete "password" row), after_save hash o hashed w)
  ∧ registerUser req res w = (Sent (Send 204), w')
  ∧ delete "password" row !! "password" = None
  ∧ get row "password" = hashed
  ∧ get row "userRole" = JObj {[ "id" := JNum 1; "name" := JStr "User" ]}
  ∧ (∀ k, k ∉ ["id"; "userRole"; "password"] → get row k = get o k)
  ∧ users w' = users w ++ [row]
  ∧ invitations w' =
      List.filter (λ r, negb (same_invitation r inv)) (invitations w)
  ∧ cache w' = delete "user" (cache w)
  ∧ trace w' =
      trace w ++
        [InvitationRead {| f_hash := hash; f_email := Some email |};
         UserRead None [("email", email)];
         HashPassword password;
         UserSave (<["userRole" := JObj {[ "id" := JNum 1; "name" := JStr "User" ]}]>
                     (<["password" := hashed]> o));
         CacheDelete "user";
         InvitationDelete inv].
Proof.
  intros Hb Ht hash email password Hi Ho Hh row w'.
  subst w' row hash email password.
  split; [by apply register_run_newUser|].
  split; [by apply register_run_success|].
  unfold new_user_row, new_user_fields, default_role.
  repeat split.
  - apply lookup_delete_eq.
  - unfold get. rewrite lookup_insert_ne by done.
    rewrite lookup_insert_ne by done. by rewrite lookup_insert_eq.
  - unfold get. rewrite lookup_insert_ne by done. by rewrite lookup_insert_eq.
  - intros k Hk. unfold get.
    rewrite !lookup_insert_ne; [done|..];
      intros <-; apply Hk; rewrite !elem_of_cons; tauto.
  - unfold after_register, after_save, after_lookups, add_trace. cbn.
    by rewrite <- !app_assoc.
Qed.

(** C4.  Registering twice with the same request, from a state that holds
    the invitation and no owner of the email: the first run replies 204 and
    leaves no invitation for the hash and email, so the second run, on the
    state the first one left, replies 403 with [Invalid hash]. *)
Theorem registerUser_twice (req : Request) (res : Res) (w : World)
    (o : gmap string JsVal) (inv : UserInvitation) (hashed : JsVal) :
  prop (req_body req) "user" = inr (JObj o) →
  truthy (get o "email") = true →
  let hash := get (req_params req) "hash" in
  let email := get o "email" in
  invitation_for w hash email = Some inv →
  owner w email = None →
  hashPassword (get o "password") = inr hashed →
  let w' := after_register hash o hashed inv w in
  registerUser req res w = (Sent (Send 204), w')
  ∧ invitation_for w' hash email = None
  ∧ registerUser req res w' =
      (Sent (Json 403 (error_body 403 "Invalid hash")),
       add_trace [InvitationRead {| f_hash := hash; f_email := Some email |}]
         w').
Proof.
  intros Hb Ht hash email Hi Ho Hh w'. subst w' hash email.
  assert (Hgone : invitation_for
            (after_register (get (req_params req) "hash") o hashed inv w)
            (get (req_params req) "hash") (get o "email") = None).
  { unfold invitation_for in *. cbn. by apply find_deleted_invitation. }
  split; [by apply register_run_success|].
  split; [exact Hgone|].
  by apply register_run_no_invitation.
Qed.

(** C1, as the code has it.  When a stored user, active or not, owns the
    email of a registration request, the reply is 400 with [Email is
    already taken] if an invitation is stored for the hash and email, and
    403 with [Invalid hash] if none is: the invitation is looked up
    first. *)
Theorem registerUser_taken_email (req : Request) (res : Res) (w : World)
    (o u : gmap string JsVal) :
  prop (req_body req) "user" = inr (JObj o) →
  truthy (get o "email") = true →
  let hash := get (req_params req) "hash" in
  let email := get o "email" in
  owner w email = Some u →
  (∀ inv, invitation_for w hash email = Some inv →
          registerUser req res w =
            (Sent (Json 400 (error_body 400 "Email is already taken")),
             after_lookups hash email w))
  ∧ (invitation_for w hash email = None →
     registerUser req res w =
       (Sent (Json 403 (error_body 403 "Invalid hash")),
        add_trace [InvitationRead {| f_hash := hash; f_email := Some email |}]
          w)).
Proof.
  intros Hb Ht hash email Ho. split.
  - intros inv Hi. by eapply register_run_taken.
  - intros Hi. by apply register_run_no_invitation.
Qed.

(** The part of C2 the code keeps: a payload without an email is answered
    with 400 and no collaborator is called. *)
Lemma registerUser_without_email (req : Request) (res : Res) (w : World)
    (email password : JsVal) :
  credentials_of req = inr (email, password) →
  truthy email = false →
  registerUser req res w =
    (Sent (Json 400 (error_body 400 "Invalid request")), w).
Proof.
  intros Hc Ht. run.
  destruct (prop (req_body req) "user") as [e|payload]; [discriminate|].
  rewrite Hc. cbn. by rewrite Ht.
Qed.

(** The part of C2 the code misses: without a payload the destructuring on
    line 105 throws before the check on line 107 is reached, and the
    request ends in [next(err)] instead of 400. *)
Lemma registerUser_without_user (req : Request) (res : Res) (w : World) :
  lacks_user (req_body req) = true →
  registerUser req res w = (Next TypeError, w).
Proof.
  unfold lacks_user. run.
  destruct (prop (req_body req) "user") as [e|p] eqn:E.
  - intros _. destruct (req_body req); simpl in E; by simplify_eq.
  - destruct p; try discriminate; intros _; by cbn.
Qed.

(** C9.  Whatever the request, [handleGitHubAuth] replies 200 with
    [{ data: url, status: 200 }] and calls nothing; [url] is the GitHub
    authorization endpoint followed by a query string whose parameters are
    the configured client id and the scope [user:email] (percent-encoded,
    so the colon is written [%3A]); the reply is not a redirect. *)
Theorem handleGitHubAuth_spec (req : Request) (w : World) :
  let url := "https://github.com/login/oauth/authorize?" +:+ authorize_query in
  handleGitHubAuth req new_res w =
    (Sent (Json 200 (JObj {[ "data" := JStr url; "status" := JNum 200 ]})), w)
  ∧ QueryString.parameters authorize_query =
      [("client_id", github_id); ("scope", "user:email")]
  ∧ is_redirect (handleGitHubAuth req new_res w).1 = false.
Proof.
  intros url. subst url. split; [reflexivity|].
  split; [apply authorize_parameters|reflexivity].
Qed.

End Properties.

(** *** The properties at work on the sample deployment *)

Lemma signinUser_without_user_witness :
  @signinUser Sample.services (Sample.request "" (JObj ∅)) new_res
    Sample.world1 = (Next TypeError, Sample.world1).
Proof.
  exact (proj2 (@signinUser_without_user Sample.services
                  (Sample.request "" (JObj ∅)) new_res Sample.world1 eq_refl)).
Defined.

Lemma signinUser_spec_witness :
  (@signinUser Sample.services
     (Sample.request "" (Sample.credentials "a@x.com" "p1")) new_res
     Sample.world1).1
  = Sent (Json 200
      (JObj {[ "status" := JNum 200;
               "data" := JObj {[
                 "user" := JObj (delete "password"
                             (project (Some signin_select) Sample.alice));
                 "token" := JStr "jwt-7" ]} ]}))
  ∧ (@signinUser Sample.services
       (Sample.request "" (Sample.credentials "a@x.com" "p2")) new_res
       Sample.world1).1
    = Sent (Json 401 (error_body 401 "Wrong email or password"))
  ∧ (@signinUser Sample.services
       (Sample.request "" (Sample.credentials "z@x.com" "p1")) new_res
       Sample.world1).1
    = Sent (Json 401 (error_body 401 "Wrong email or password")).
Proof.
  split; [|split].
  - pose proof (@signinUser_spec Sample.services
      (Sample.request "" (Sample.credentials "a@x.com" "p1")) Sample.world1
      (JStr "a@x.com") (JStr "p1") eq_refl eq_refl eq_refl) as (Hok & _).
    destruct (Hok Sample.alice eq_refl eq_refl) as (-> & _). reflexivity.
  - pose proof (@signinUser_spec Sample.services
      (Sample.request "" (Sample.credentials "a@x.com" "p2")) Sample.world1
      (JStr "a@x.com") (JStr "p2") eq_refl eq_refl eq_refl) as (_ & _ & Hbad).
    rewrite (Hbad Sample.alice eq_refl eq_refl). reflexivity.
  - pose proof (@signinUser_spec Sample.services
      (Sample.request "" (Sample.credentials "z@x.com" "p1")) Sample.world1
      (JStr "z@x.com") (JStr "p1") eq_refl eq_refl eq_refl) as (_ & Hnone & _).
    rewrite (Hnone eq_refl). reflexivity.
Defined.

Lemma validateRegistrationHash_spec_witness :
  (validateRegistrationHash
     (Sample.request "h-b" JUndefined) new_res Sample.world1).1
    = Sent (Send 204)
  ∧ (validateRegistrationHash
       (Sample.request "h-x" JUndefined) new_res Sample.world1).1
    = Sent (Json 403 (error_body 403 "Invalid hash"))
  ∧ (validateRegistrationHash
       (Sample.request "" JUndefined) new_res Sample.world1)
    = (Sent (Json 400 (error_body 400 "Invalid request")), Sample.world1).
Proof.
  split; [|split].
  - pose proof (validateRegistrationHash_spec
      (Sample.request "h-b" JUndefined) new_res Sample.world1) as (_ & Hok & _).
    rewrite (Hok eq_refl Sample.invitation_b eq_refl). reflexivity.
  - pose proof (validateRegistrationHash_spec
      (Sample.request "h-x" JUndefined) new_res Sample.world1) as (_ & _ & Hno).
    rewrite (Hno eq_refl eq_refl). reflexivity.
  - pose proof (validateRegistrationHash_spec
      (Sample.request "" JUndefined) new_res Sample.world1) as (Hbad & _).
    exact (Hbad eq_refl).
Defined.

Lemma unregisterUser_spec_witness :
  unregisterUser (Sample.as_user "a@x.com") new_res Sample.world1
    = (Sent (Send 204),
       add_trace [UserRead None [("email", JStr "a@x.com")];
                  UserDelete Sample.alice; CacheDelete "user"]
         (set_cache ∅ (set_users [] Sample.world1)))
  ∧ unregisterUser (Sample.as_user "z@x.com") new_res Sample.world1
    = (Sent (Json 404 (error_body 404 "User not found")),
       add_trace [UserRead None [("email", JStr "z@x.com")]] Sample.world1).
Proof.
  split.
  - pose proof (unregisterUser_spec
      (Sample.as_user "a@x.com") new_res Sample.world1 (JStr "a@x.com")
      eq_refl eq_refl) as (_ & Hok).
    destruct (Hok Sample.alice eq_refl) as (Hrun & _).
    exact Hrun.
  - pose proof (unregisterUser_spec
      (Sample.as_user "z@x.com") new_res Sample.world1 (JStr "z@x.com")
      eq_refl eq_refl) as (Hno & _).
    exact (Hno eq_refl).
Defined.



Lemma registerUser_success_witness :
  let req := Sample.request "h-b" (Sample.credentials "b@x.com" "p2") in
  let o := Sample.payload "b@x.com" "p2" in
  let row := new_user_row Sample.world1 o (JStr "hashed:p2") in
  let w' := after_register (JStr "h-b") o (JStr "hashed:p2")
              Sample.invitation_b Sample.world1 in
  @registerUser Sample.services req new_res Sample.world1
    = (Sent (Send 204), w')
  ∧ users w' = [Sample.alice; row]
  ∧ invitations w' = []
  ∧ get row "password" = JStr "hashed:p2"
  ∧ get row "userRole" = JObj {[ "id" := JNum 1; "name" := JStr "User" ]}
  ∧ get row "email" = JStr "b@x.com".
Proof.
  cbv zeta.
  pose proof (@registerUser_success Sample.services
    (Sample.request "h-b" (Sample.credentials "b@x.com" "p2")) new_res
    Sample.world1 (Sample.payload "b@x.com" "p2") Sample.invitation_b
    (JStr "hashed:p2") eq_refl eq_refl eq_refl eq_refl eq_refl)
    as (_ & Hrun & _ & Hpw & Hrole & _ & Husers & Hinv & _).
  cbv zeta in *.
  split; [exact Hrun|]. split; [exact Husers|]. split; [exact Hinv|].
  split; [exact Hpw|]. split; [exact Hrole|]. reflexivity.
Defined.

Lemma registerUser_twice_witness :
  let req := Sample.request "h-b" (Sample.credentials "b@x.com" "p2") in
  let w' := after_register (JStr "h-b") (Sample.payload "b@x.com" "p2")
              (JStr "hashed:p2") Sample.invitation_b Sample.world1 in
  @registerUser Sample.services req new_res Sample.world1
    = (Sent (Send 204), w')
  ∧ @registerUser Sample.services req new_res w'
    = (Sent (Json 403 (error_body 403 "Invalid hash")),
       add_trace [InvitationRead {| f_hash := JStr "h-b";
                                    f_email := Some (JStr "b@x.com") |}] w').
Proof.
  cbv zeta.
  pose proof (@registerUser_twice Sample.services
    (Sample.request "h-b" (Sample.credentials "b@x.com" "p2")) new_res
    Sample.world1 (Sample.payload "b@x.com" "p2") Sample.invitation_b
    (JStr "hashed:p2") eq_refl eq_refl eq_refl eq_refl eq_refl)
    as (Hfirst & _ & Hsecond).
  cbv zeta in *. split; [exact Hfirst|exact Hsecond].
Defined.

Lemma registerUser_taken_email_witness :
  @registerUser Sample.services
     (Sample.request "h-a" (Sample.credentials "a@x.com" "p9")) new_res
     Sample.world2
    = (Sent (Json 400 (error_body 400 "Email is already taken")),
       after_lookups (JStr "h-a") (JStr "a@x.com") Sample.world2)
  ∧ @registerUser Sample.services
      (Sample.request "h-x" (Sample.credentials "a@x.com" "p9")) new_res
      Sample.world2
    = (Sent (Json 403 (error_body 403 "Invalid hash")),
       add_trace [InvitationRead {| f_hash := JStr "h-x";
                                    f_email := Some (JStr "a@x.com") |}]
         Sample.world2).
Proof.
  split.
  - pose proof (@registerUser_taken_email Sample.services
      (Sample.request "h-a" (Sample.credentials "a@x.com" "p9")) new_res
      Sample.world2 (Sample.payload "a@x.com" "p9") Sample.alice
      eq_refl eq_refl eq_refl) as (Htaken & _).
    exact (Htaken Sample.invitation_a eq_refl).
  - pose proof (@registerUser_taken_email Sample.services
      (Sample.request "h-x" (Sample.credentials "a@x.com" "p9")) new_res
      Sample.world2 (Sample.payload "a@x.com" "p9") Sample.alice
      eq_refl eq_refl eq_refl) as (_ & Hnone).
    exact (Hnone eq_refl).
Defined.

(** C1 as the specification words it fails: a stored user owns the email,
    the hash matches no invitation, and the reply is 403, not 400. *)
Lemma registerUser_taken_email_counterexample :
  let req := Sample.request "h-x" (Sample.credentials "a@x.com" "p9") in
  credentials_of req = inr (JStr "a@x.com", JStr "p9")
  ∧ owner Sample.world1 (JStr "a@x.com") = Some Sample.alice
  ∧ (@registerUser Sample.services req new_res Sample.world1).1
    = Sent (Json 403 (error_body 403 "Invalid hash"))
  ∧ (@registerUser Sample.services req new_res Sample.world1).1
    ≠ Sent (Json 400 (error_body 400 "Email is already taken")).
Proof.
  cbv zeta.
  assert (Hrun : (@registerUser Sample.services
                    (Sample.request "h-x" (Sample.credentials "a@x.com" "p9"))
                    new_res Sample.world1).1
                 = Sent (Json 403 (error_body 403 "Invalid hash"))).
  { by rewrite (@register_run_no_invitation Sample.services
      (Sample.request "h-x" (Sample.credentials "a@x.com" "p9")) new_res
      Sample.world1 (Sample.payload "a@x.com" "p9") eq_refl eq_refl eq_refl). }
  split; [reflexivity|]. split; [reflexivity|]. split; [exact Hrun|].
  rewrite Hrun. discriminate.
Qed.

(** C2 at the input the code gets wrong: a registration whose body has no
    [user].  The handler ends in [next] with the [TypeError] of the
    destructuring; the 400 of line 108 is never written.  No collaborator
    is called. *)
Theorem registerUser_missing_payload :
  let req := Sample.request "h-b" (JObj ∅) in
  lacks_user (req_body req) = true
  ∧ @registerUser Sample.services req new_res Sample.world1
    = (Next TypeError, Sample.world1)
  ∧ (@registerUser Sample.services req new_res Sample.world1).1
    ≠ Sent (Json 400 (error_body 400 "Invalid request")).
Proof.
  cbv zeta.
  pose proof (@registerUser_without_user Sample.services
    (Sample.request "h-b" (JObj ∅)) new_res Sample.world1 eq_refl) as Hrun.
  split; [reflexivity|]. split; [exact Hrun|].
  rewrite Hrun. discriminate.
Qed.

(** The authorization URL of the sample deployment. *)
Example handleGitHubAuth_sample :
  (@handleGitHubAuth Sample.services (Sample.request "" JUndefined) new_res
     Sample.world1).1
  = Sent (Json 200
      (JObj {[ "data" := JStr "https://github.com/login/oauth/authorize?client_id=Iv1.8a61f9b3a7aba766&scope=user%3Aemail";
               "status" := JNum 200 ]})).
Proof. vm_compute. reflexivity. Qed.

(** ** Further properties of the handlers *)

(** *** Searching a store *)

Lemma find_app_last {A} (p : A → bool) (l : list A) (x : A) :
  p x = true → ∃ y, find p (l ++ [x]) = Some y.
Proof.
  intros Hx. induction l as [|a l IH]; simpl.
  - rewrite Hx. eauto.
  - destruct (p a); eauto.
Qed.

Lemma find_app_fresh {A} (p : A → bool) (l : list A) (x : A) :
  find p l = None → p x = true → find p (l ++ [x]) = Some x.
Proof.
  intros Hl Hx. induction l as [|a l IH]; simpl in *.
  - by rewrite Hx.
  - destruct (p a); [discriminate|]. by apply IH.
Qed.

Lemma find_none_stronger {A} (p q : A → bool) (l : list A) :
  (∀ x, q x = true → p x = true) → find p l = None → find q l = None.
Proof.
  intros Hpq. induction l as [|a l IH]; simpl; [done|].
  destruct (p a) eqn:Ep; [discriminate|]. intros Hl.
  destruct (q a) eqn:Eq; [|by apply IH].
  apply Hpq in Eq. congruence.
Qed.

Lemma find_filter_none {A} (p f : A → bool) (l : list A) :
  find p l = None → find p (List.filter f l) = None.
Proof.
  induction l as [|a l IH]; simpl; [done|].
  destruct (p a) eqn:Ep; [discriminate|]. intros Hl.
  destruct (f a); simpl; [rewrite Ep|]; by apply IH.
Qed.

Lemma stores_kept_trace (t : list Event) (w : World) :
  stores_kept w (set_trace t w).
Proof. by destruct w. Qed.

(** *** What the handlers do at the edges *)

Section Further.
Context `{Services}.

#[local] Arguments project : simpl never.
#[local] Arguments get : simpl never.

(** X1.  A sign-in whose payload lacks the email or the password is
    answered with 400 and [Invalid request]; no collaborator is called. *)
Theorem signinUser_missing_field (req : Request) (res : Res) (w : World)
    (email password : JsVal) :
  credentials_of req = inr (email, password) →
  truthy email && truthy password = false →
  signinUser req res w =
    (Sent (Json 400 (error_body 400 "Invalid request")), w).
Proof.
  intros Hc Ht. run.
  destruct (prop (req_body req) "user") as [e|payload]; [discriminate|].
  rewrite Hc. cbn.
  destruct (truthy email), (truthy password); try discriminate; done.
Qed.

(** X2.  When password verification rejects, sign-in forwards that error
    to [next] as it is: the user was read and the verification called, no
    token is made and no reply written. *)
Theorem signinUser_verify_rejects (req : Request) (res : Res) (w : World)
    (email password : JsVal) (u : gmap string JsVal) (e : Err) :
  credentials_of req = inr (email, password) →
  truthy email = true →
  truthy password = true →
  active_user w email = Some u →
  verifyPassword password (get u "password") = inl e →
  signinUser req res w =
    (Next e,
     add_trace [UserRead (Some signin_select)
                  [("email", email); ("active", JBool true)];
                VerifyPassword password (get u "password")] w).
Proof.
  intros Hc He Hp Hu Hv. unfold active_user, signin_select in *. run.
  destruct (prop (req_body req) "user") as [e'|payload]; [discriminate|].
  rewrite Hc, He, Hp. cbn. rewrite Hu. cbn.
  rewrite (get_project _ u "password") by (rewrite !elem_of_cons; tauto).
  rewrite Hv. cbn.
  destruct w; unfold set_trace; cbn. by rewrite <- !app_assoc.
Qed.

(** X3.  Sign-in never writes: whatever the request and however it ends,
    the stores, the cache, the outbox and the counters are as before. *)
Theorem signinUser_never_writes (req : Request) (res : Res) (w : World) :
  stores_kept w (signinUser req res w).2.
Proof.
  run. branches; try apply stores_kept_trace; try (by destruct w).
Qed.

(** X4.  Validating a hash consumes nothing: the stores are as before, and
    asking again right away gets the same reply. *)
Theorem validateRegistrationHash_repeatable (req : Request) (res : Res)
    (w : World) :
  let r := validateRegistrationHash req res w in
  stores_kept w r.2
  ∧ (validateRegistrationHash req res r.2).1 = r.1.
Proof.
  cbv zeta. run. cbn.
  destruct (truthy (get (req_params req) "hash")); cbn.
  - destruct (find _ (invitations w)) eqn:E; cbn;
      (split; [apply stores_kept_trace|by rewrite E]).
  - split; [by destruct w|done].
Qed.

(** X5.  When hashing the password rejects (a payload without a password,
    say), registration forwards that error to [next]: the invitation and
    the user were read and the hashing called, no user is saved and the
    invitation is not consumed. *)
Theorem registerUser_hash_rejects (req : Request) (res : Res) (w : World)
    (o : gmap string JsVal) (inv : UserInvitation) (e : Err) :
  prop (req_body req) "user" = inr (JObj o) →
  truthy (get o "email") = true →
  let hash := get (req_params req) "hash" in
  let email := get o "email" in
  invitation_for w hash email = Some inv →
  owner w email = None →
  hashPassword (get o "password") = inl e →
  registerUser req res w =
    (Next e,
     add_trace [InvitationRead {| f_hash := hash; f_email := Some email |};
                UserRead None [("email", email)];
                HashPassword (get o "password")] w).
Proof.
  intros Hb Ht hash email Hi Ho Hh. subst hash email.
  unfold invitation_for, owner in *. run.
  rewrite Hb. cbn. rewrite Ht. cbn. rewrite (truthy_defined _ Ht). cbn.
  rewrite Hi. cbn. rewrite Ho. cbn. rewrite Hh. cbn.
  destruct w; unfold set_trace; cbn. by rewrite <- !app_assoc.
Qed.

(** X6.  Registration writes only when it succeeds: every write comes
    after the last check, so unless the reply is 204 the stores, the cache,
    the outbox and the counters are as before. *)
Theorem registerUser_writes_only_on_success (req : Request) (res : Res)
    (w : World) :
  (registerUser req res w).1 ≠ Sent (Send 204) →
  stores_kept w (registerUser req res w).2.
Proof.
  run. branches; intros Hne; try apply stores_kept_trace;
    try (by destruct w); try (unfold stores_kept; by destruct w).
Qed.

(** X7.  Unregistering without an authenticated principal ends in [next]
    with the [TypeError] of the destructuring, and a principal without an
    email is answered with 400; in both cases no collaborator is called. *)
Theorem unregisterUser_without_email (req : Request) (res : Res) (w : World) :
  (∀ e, prop (req_user req) "email" = inl e →
        unregisterUser req res w = (Next e, w))
  ∧ (∀ email, prop (req_user req) "email" = inr email →
              truthy email = false →
              unregisterUser req res w =
                (Sent (Json 400 (error_body 400 "Invalid request")), w)).
Proof.
  run. split.
  - by intros e ->.
  - intros email -> Ht. cbn. by rewrite Ht.
Qed.

(** X8.  Unregistering never touches the invitations, the outbox or the
    token generator, and unless the reply is 204 it writes nothing at
    all. *)
Theorem unregisterUser_frame (req : Request) (res : Res) (w : World) :
  let r := unregisterUser req res w in
  invitations r.2 = invitations w
  ∧ outbox r.2 = outbox w
  ∧ uuid_seq r.2 = uuid_seq w
  ∧ (r.1 ≠ Sent (Send 204) → stores_kept w r.2).
Proof.
  cbv zeta. run. branches; repeat split; try done;
    try (intros _; apply stores_kept_trace); try (intros _; by destruct w).
Qed.

(** X9.  Creating an invitation never touches the users or the cache,
    and a request it answers with an error body has written nothing: every
    400 is replied before the invitation is stored and the mail sent. *)
Theorem createUserInvitation_frame (req : Request) (res : Res) (w : World) :
  let r := createUserInvitation req res w in
  users r.2 = users w
  ∧ user_seq r.2 = user_seq w
  ∧ cache r.2 = cache w
  ∧ (∀ code body, r.1 = Sent (Json code body) → stores_kept w r.2).
Proof.
  cbv zeta. run. branches; repeat split; try done;
    try (intros _ _ _; apply stores_kept_trace);
    try (intros _ _ _; by destruct w).
Qed.

(** *** How the handlers compose *)

Lemma invite_run_success (req : Request) (res : Res) (w : World)
    (email : JsVal) :
  prop (req_body req) "email" = inr email →
  truthy email = true →
  validator_isEmail email = inr true →
  owner w email = None →
  createUserInvitation req res w = (Sent (Send 204), after_invite email w).
Proof.
  intros He Ht Hv Ho. unfold owner, after_invite in *. run.
  rewrite He. cbn. rewrite Ht, Hv. cbn. rewrite Ho. cbn.
  destruct w; unfold set_trace, set_outbox, set_invitations, set_uuid_seq.
  cbn. by rewrite <- !app_assoc.
Qed.

Lemma invite_run_taken (req : Request) (res : Res) (w : World)
    (email : JsVal) (u : gmap string JsVal) :
  prop (req_body req) "email" = inr email →
  truthy email = true →
  validator_isEmail email = inr true →
  owner w email = Some u →
  createUserInvitation req res w =
    (Sent (Json 400 (error_body 400 "Email is already taken")),
     add_trace [UserRead None [("email", email)]] w).
Proof.
  intros He Ht Hv Ho. unfold owner in *. run.
  rewrite He. cbn. rewrite Ht, Hv. cbn. by rewrite Ho.
Qed.

Lemma validate_run (req : Request) (res : Res) (w : World) :
  truthy (get (req_params req) "hash") = true →
  validateRegistrationHash req res w =
    (Sent (match invitation_by_hash w (get (req_params req) "hash") with
           | Some _ => Send 204
           | None => Json 403 (error_body 403 "Invalid hash")
           end),
     add_trace [InvitationRead {| f_hash := get (req_params req) "hash";
                                  f_email := None |}] w).
Proof.
  intros Ht. unfold invitation_by_hash. run. cbn. rewrite Ht. cbn.
  by destruct (find _ (invitations w)).
Qed.

Lemma strict_eq_refl_str s : strict_eq (JStr s) (JStr s) = true.
Proof. simpl. apply String.eqb_refl. Qed.

Lemma isEmail_string email :
  validator_isEmail email = inr true → ∃ s, email = JStr s.
Proof. destruct email; simpl; try discriminate. eauto. Qed.

(** X10.  An invitation is good for one registration.  From a state where
    nobody owns the address and no stored invitation carries the token the
    generator hands out next: inviting the address replies 204; validating
    the mailed token replies 204; registering with the token, the address
    and a password that hashes replies 204; validating the token again
    replies 403. *)
Theorem invitation_single_use (req1 req2 req3 : Request) (res : Res)
    (w : World) (email : JsVal) (o : gmap string JsVal) (hashed : JsVal) :
  let token := JStr (generateUuid (uuid_seq w)) in
  prop (req_body req1) "email" = inr email →
  truthy email = true →
  validator_isEmail email = inr true →
  owner w email = None →
  truthy token = true →
  invitation_by_hash w token = None →
  get (req_params req2) "hash" = token →
  prop (req_body req2) "user" = inr (JObj o) →
  get o "email" = email →
  hashPassword (get o "password") = inr hashed →
  get (req_params req3) "hash" = token →
  let invited := createUserInvitation req1 res w in
  let valid := validateRegistrationHash req3 res invited.2 in
  let registered := registerUser req2 res valid.2 in
  let spent := validateRegistrationHash req3 res registered.2 in
  invited.1 = Sent (Send 204)
  ∧ valid.1 = Sent (Send 204)
  ∧ registered.1 = Sent (Send 204)
  ∧ spent.1 = Sent (Json 403 (error_body 403 "Invalid hash")).
Proof.
  intros token He Ht Hv Ho Htok Hfresh Hh2 Hb Hoe Hp Hh3.
  cbv zeta. subst token.
  destruct (isEmail_string _ Hv) as [s ->].
  set (t := generateUuid (uuid_seq w)) in *.
  set (inv := {| inv_email := JStr s; inv_hash := JStr t |}).
  rewrite (invite_run_success req1 res w (JStr s) He Ht Hv Ho). cbn [fst snd].
  assert (Hmatch : inv_matches {| f_hash := JStr t; f_email := None |} inv
                   = true).
  { unfold inv_matches. cbn. by rewrite String.eqb_refl. }
  assert (Hmatch2 : inv_matches {| f_hash := JStr t;
                                   f_email := Some (JStr s) |} inv = true).
  { unfold inv_matches. cbn. by rewrite !String.eqb_refl. }
  assert (Hnone2 : find (inv_matches {| f_hash := JStr t;
                                        f_email := Some (JStr s) |})
                     (invitations w) = None).
  { revert Hfresh. unfold invitation_by_hash. apply find_none_stronger.
    intros x. unfold inv_matches. cbn. by intros [-> _]%andb_true_iff. }
  (* the mailed token validates *)
  rewrite (validate_run req3 res (after_invite (JStr s) w))
    by (by rewrite Hh3).
  rewrite Hh3. cbn [fst snd].
  assert (Hby : invitation_by_hash (after_invite (JStr s) w) (JStr t)
                = Some inv).
  { unfold invitation_by_hash, after_invite. cbn.
    by apply find_app_fresh. }
  rewrite Hby.
  (* the registration goes through *)
  set (w1 := add_trace _ (after_invite (JStr s) w)).
  assert (Hfor : invitation_for w1 (get (req_params req2) "hash")
                   (get o "email") = Some inv).
  { rewrite Hh2, Hoe. unfold invitation_for, w1, after_invite. cbn.
    by apply find_app_fresh. }
  assert (Hown : owner w1 (get o "email") = None).
  { rewrite Hoe. unfold owner, w1, after_invite. cbn. exact Ho. }
  assert (Hte : truthy (get o "email") = true) by (by rewrite Hoe).
  rewrite (register_run_success req2 res w1 o inv hashed Hb Hte Hfor Hown Hp).
  cbn [fst snd].
  (* and the token is spent *)
  rewrite validate_run by (by rewrite Hh3).
  rewrite Hh3. cbn [fst snd].
  assert (Hgone : invitation_by_hash
            (after_register (get (req_params req2) "hash") o hashed inv w1)
            (JStr t) = None).
  { unfold invitation_by_hash, after_register, w1, after_invite. cbn.
    rewrite List.filter_app. cbn.
    unfold same_invitation at 2. cbn. rewrite !String.eqb_refl. cbn.
    rewrite app_nil_r. by apply find_filter_none. }
  by rewrite Hgone.
Qed.

(** X11.  Once a registration has succeeded its address is taken: an
    invitation for the same address, asked for on the state the
    registration left, is refused with 400 and [Email is already taken]. *)
Theorem registered_email_is_taken (req req' : Request) (res res' : Res)
    (w : World) (o : gmap string JsVal) (inv : UserInvitation)
    (hashed : JsVal) :
  let email := get o "email" in
  prop (req_body req) "user" = inr (JObj o) →
  truthy email = true →
  invitation_for w (get (req_params req) "hash") email = Some inv →
  owner w email = None →
  hashPassword (get o "password") = inr hashed →
  prop (req_body req') "email" = inr email →
  validator_isEmail email = inr true →
  let registered := registerUser req res w in
  registered.1 = Sent (Send 204)
  ∧ (createUserInvitation req' res' registered.2).1 =
      Sent (Json 400 (error_body 400 "Email is already taken")).
Proof.
  intros email Hb Ht Hi Ho Hp He Hv. cbv zeta. subst email.
  rewrite (register_run_success req res w o inv hashed Hb Ht Hi Ho Hp).
  cbn [fst snd]. split; [done|].
  destruct (isEmail_string _ Hv) as [s Hs].
  assert (Hown : ∃ u, owner (after_register (get (req_params req) "hash") o
                               hashed inv w) (get o "email") = Some u).
  { unfold owner, after_register, after_save. cbn.
    apply find_app_last. unfold where_matches, new_user_row, new_user_fields.
    cbn. unfold get at 1. rewrite !lookup_insert_ne by done.
    fold (get o "email"). rewrite Hs. by rewrite strict_eq_refl_str. }
  destruct Hown as [u Hu].
  by rewrite (invite_run_taken req' res' _ _ u He Ht Hv Hu).
Qed.

(** X12.  A hash that validation rejects registers nobody: when
    [validateRegistrationHash] answers 403 for a request, [registerUser] on
    the same request and state does not answer 204, whatever the body. *)
Theorem rejected_hash_never_registers (req : Request) (res res' : Res)
    (w : World) :
  (validateRegistrationHash req res w).1 =
    Sent (Json 403 (error_body 403 "Invalid hash")) →
  (registerUser req res' w).1 ≠ Sent (Send 204).
Proof.
  intros Hv.
  assert (Hnone : ∀ fe, find (inv_matches
                     {| f_hash := get (req_params req) "hash"; f_email := fe |})
                     (invitations w) = None).
  { revert Hv. run. cbn.
    destruct (truthy (get (req_params req) "hash")); cbn; [|discriminate].
    destruct (find _ (invitations w)) eqn:E; cbn; [discriminate|].
    intros _ fe. revert E. apply find_none_stronger.
    intros x. unfold inv_matches. cbn. by intros [-> _]%andb_true_iff. }
  run. destruct (prop (req_body req) "user") as [e|payload]; cbn; [done|].
  destruct (destructure2 payload "email" "password") as [e|[email password]];
    cbn; [done|].
  destruct (truthy email); cbn; [|done].
  destruct (truthy payload); cbn; [|done].
  destruct (strict_eq email JUndefined); rewrite Hnone; cbn; done.
Qed.

(** X13.  A pending invitation does not stand in the way of another one:
    two invitations asked for in a row for the same address are both
    stored and mailed, with the two tokens the generator hands out in
    turn. *)
Theorem invite_twice (req : Request) (res : Res) (w : World) (email : JsVal) :
  prop (req_body req) "email" = inr email →
  truthy email = true →
  validator_isEmail email = inr true →
  owner w email = None →
  let first := createUserInvitation req res w in
  let second := createUserInvitation req res first.2 in
  let token n := JStr (generateUuid n) in
  let n := uuid_seq w in
  first.1 = Sent (Send 204)
  ∧ second.1 = Sent (Send 204)
  ∧ invitations second.2 =
      invitations w ++ [{| inv_email := email; inv_hash := token n |};
                        {| inv_email := email; inv_hash := token (S n) |}]
  ∧ outbox second.2 = outbox w ++ [(email, token n); (email, token (S n))].
Proof.
  intros He Ht Hv Ho. cbv zeta.
  rewrite (invite_run_success req res w email He Ht Hv Ho). cbn [fst snd].
  assert (Ho' : owner (after_invite email w) email = None) by exact Ho.
  rewrite (invite_run_success req res _ email He Ht Hv Ho'). cbn [fst snd].
  repeat split; unfold after_invite; cbn; by rewrite <- app_assoc.
Qed.

Lemma find_filter_excluded {A} (p f : A → bool) (l : list A) :
  (∀ x, In x l → f x = true → p x = false) →
  find p (List.filter f l) = None.
Proof.
  induction l as [|a l IH]; simpl; [done|]. intros Hfp.
  destruct (f a) eqn:Ef; simpl.
  - rewrite (Hfp a (or_introl eq_refl) Ef). apply IH. by eauto.
  - apply IH. by eauto.
Qed.

(** X14.  Unregistering is final when the address belongs to one account
    (every stored user with the address has the key of the one found):
    afterwards nobody owns the address, so unregistering again replies 404
    and a sign-in with the address replies 401. *)
Theorem unregistered_is_gone (req signin : Request) (res : Res) (w : World)
    (email password : JsVal) (u : gmap string JsVal) :
  prop (req_user req) "email" = inr email →
  truthy email = true →
  owner w email = Some u →
  one_account email u (users w) = true →
  credentials_of signin = inr (email, password) →
  truthy password = true →
  let gone := unregisterUser req res w in
  gone.1 = Sent (Send 204)
  ∧ owner gone.2 email = None
  ∧ (unregisterUser req res gone.2).1 =
      Sent (Json 404 (error_body 404 "User not found"))
  ∧ (signinUser signin res gone.2).1 =
      Sent (Json 401 (error_body 401 "Wrong email or password")).
Proof.
  intros He Ht Ho Hone Hc Hp. cbv zeta.
  assert (Hrun : unregisterUser req res w =
    (Sent (Send 204),
     add_trace [UserRead None [("email", email)]; UserDelete u;
                CacheDelete "user"]
       (set_cache (delete "user" (cache w))
          (set_users
             (List.filter (λ r, negb (strict_eq (get r "id") (get u "id")))
                (users w)) w)))).
  { unfold owner in Ho. run. rewrite He. cbn. rewrite Ht. cbn. rewrite Ho. cbn.
    destruct w; unfold set_trace, set_cache, set_users; cbn.
    by rewrite <- !app_assoc. }
  rewrite Hrun. cbn [fst snd].
  assert (Hgone : ∀ wh,
    find (where_matches (("email", email) :: wh))
      (List.filter (λ r, negb (strict_eq (get r "id") (get u "id")))
         (users w)) = None).
  { intros wh. apply find_filter_excluded. intros r Hin Hr.
    unfold one_account in Hone. rewrite forallb_forall in Hone.
    specialize (Hone r Hin). apply negb_true_iff in Hr.
    rewrite Hr in Hone. unfold where_matches in *. cbn in *.
    destruct (strict_eq (get r "email") email); [discriminate|done]. }
  split; [done|]. split; [apply (Hgone [])|]. split.
  - run. rewrite He. cbn. rewrite Ht. cbn.
    by rewrite (Hgone []).
  - unfold signin_select. run.
    destruct (prop (req_body signin) "user") as [e|payload]; [discriminate|].
    rewrite Hc, Ht, Hp. cbn.
    by rewrite (Hgone [("active", JBool true)]).
Qed.

Lemma distinct_emails_snoc (l : list (gmap string JsVal))
    (row : gmap string JsVal) :
  distinct_emails l = true →
  find (where_matches [("email", get row "email")]) l = None →
  distinct_emails (l ++ [row]) = true.
Proof.
  induction l as [|a l IH]; simpl; [done|].
  intros [Ha Hl]%andb_true_iff.
  unfold where_matches at 1. cbn.
  destruct (strict_eq (get a "email") (get row "email")) eqn:E; cbn;
    [discriminate|].
  intros Hf. rewrite existsb_app. cbn.
  apply negb_true_iff in Ha. rewrite Ha. cbn.
  rewrite strict_eq_sym, E. cbn. by apply IH.
Qed.

(** X15.  Registration never gives an address a second account: if no two
    stored users share an email before a registration request, none do
    after it, however the request ends. *)
Theorem registerUser_keeps_emails_distinct (req : Request) (res : Res)
    (w : World) :
  distinct_emails (users w) = true →
  distinct_emails (users (registerUser req res w).2) = true.
Proof.
  intros Hd. run.
  destruct (prop (req_body req) "user") as [e|payload]; cbn; [done|].
  destruct payload as [| | | | | |o]; cbn; try done.
  destruct (truthy (get o "email")) eqn:Et; cbn; [|done].
  rewrite (truthy_defined _ Et). cbn.
  destruct (find _ (invitations w)); cbn; [|done].
  destruct (find _ (users w)) eqn:Eo; cbn; [done|].
  destruct (hashPassword (get o "password")); cbn; [done|].
  apply distinct_emails_snoc; [done|].
  unfold get at 1. rewrite !lookup_insert_ne by done. exact Eo.
Qed.

(** X16.  Sign-in gives away no column it did not select: whatever the
    request and however it is answered, a [user] object in the reply's
    [data] has no key besides [id], [email], [firstname] and [lastname];
    the password, the role and the active flag never leave the store. *)
Theorem signinUser_reply_columns (req : Request) (res : Res) (w : World)
    (code : Z) (body data user : gmap string JsVal) (k : string) :
  (signinUser req res w).1 = Sent (Json code (JObj body)) →
  get body "data" = JObj data →
  get data "user" = JObj user →
  k ∉ ["id"; "email"; "firstname"; "lastname"] →
  user !! k = None.
Proof.
  intros Hrun Hdata Huser Hk. revert Hrun. run.
  destruct (prop (req_body req) "user") as [e|payload]; cbn; [done|].
  destruct (destructure2 payload "email" "password") as [e|[email password]];
    cbn; [done|].
  assert (Herr : ∀ c m, Sent (Json c (error_body c m))
                        = Sent (Json code (JObj body)) → user !! k = None).
  { intros c m [= _ <-]. unfold get in Hdata.
    rewrite lookup_insert_ne in Hdata by done.
    rewrite lookup_singleton_ne in Hdata by done. done. }
  destruct (negb (truthy email) || negb (truthy password)); cbn;
    [by apply Herr|].
  destruct (find _ (users w)) as [u|]; cbn; [|by apply Herr].
  destruct (verifyPassword _ _) as [e|ok]; cbn; [done|].
  destruct ok; cbn; [|by apply Herr].
  intros [= _ <-]. unfold get in Hdata, Huser.
  rewrite lookup_insert_ne in Hdata by done.
  rewrite lookup_singleton_eq in Hdata. cbn in Hdata.
  injection Hdata as <-.
  rewrite lookup_insert_eq in Huser. cbn in Huser.
  injection Huser as <-.
  destruct (decide (k = "password")) as [->|Hne];
    [apply lookup_delete_eq|].
  rewrite lookup_delete_ne by done.
  unfold project. apply map_lookup_filter_None_2. right.
  intros v _ Hin. cbn in Hin.
  apply Hk. rewrite !elem_of_cons in Hin. rewrite !elem_of_cons.
  destruct Hin as [->|[->|[->|[->|[->|Hin]]]]]; tauto.
Qed.

End Further.

(** *** The further properties on the sample deployment *)

Lemma signinUser_missing_field_witness :
  @signinUser Sample.services
    (Sample.request "" (Sample.credentials "a@x.com" "")) new_res
    Sample.world1
  = (Sent (Json 400 (error_body 400 "Invalid request")), Sample.world1).
Proof.
  exact (@signinUser_missing_field Sample.services
           (Sample.request "" (Sample.credentials "a@x.com" "")) new_res
           Sample.world1 (JStr "a@x.com") (JStr "") eq_refl eq_refl).
Defined.

Lemma signinUser_verify_rejects_witness :
  @signinUser Sample.services
    (Sample.request "" (Sample.credentials "k@x.com" "p1")) new_res
    Sample.world3
  = (Next (Thrown (JStr "data and hash arguments required")),
     add_trace [UserRead (Some signin_select)
                  [("email", JStr "k@x.com"); ("active", JBool true)];
                VerifyPassword (JStr "p1") JUndefined] Sample.world3).
Proof.
  exact (@signinUser_verify_rejects Sample.services
           (Sample.request "" (Sample.credentials "k@x.com" "p1")) new_res
           Sample.world3 (JStr "k@x.com") (JStr "p1") Sample.broken
           (Thrown (JStr "data and hash arguments required"))
           eq_refl eq_refl eq_refl eq_refl eq_refl).
Defined.

Lemma registerUser_hash_rejects_witness :
  @registerUser Sample.services
    (Sample.request "h-b" (Sample.no_password "b@x.com")) new_res
    Sample.world1
  = (Next (Thrown (JStr "data and salt arguments required")),
     add_trace [InvitationRead {| f_hash := JStr "h-b";
                                  f_email := Some (JStr "b@x.com") |};
                UserRead None [("email", JStr "b@x.com")];
                HashPassword JUndefined] Sample.world1).
Proof.
  exact (@registerUser_hash_rejects Sample.services
           (Sample.request "h-b" (Sample.no_password "b@x.com")) new_res
           Sample.world1 {[ "email" := JStr "b@x.com" ]} Sample.invitation_b
           (Thrown (JStr "data and salt arguments required"))
           eq_refl eq_refl eq_refl eq_refl eq_refl).
Defined.

Lemma registerUser_writes_only_on_success_witness :
  stores_kept Sample.world1
    (@registerUser Sample.services
       (Sample.request "h-x" (Sample.credentials "a@x.com" "p9")) new_res
       Sample.world1).2.
Proof.
  apply (@registerUser_writes_only_on_success Sample.services).
  vm_compute. discriminate.
Defined.

Lemma invitation_single_use_witness :
  let invite := Sample.invite (JStr "c@x.com") in
  let register := Sample.request "uuid-3" (Sample.credentials "c@x.com" "p3") in
  let validate := Sample.request "uuid-3" JUndefined in
  let invited := @createUserInvitation Sample.services invite new_res
                   Sample.world1 in
  let valid := validateRegistrationHash validate new_res invited.2 in
  let registered := @registerUser Sample.services register new_res valid.2 in
  let spent := validateRegistrationHash validate new_res registered.2 in
  invited.1 = Sent (Send 204)
  ∧ valid.1 = Sent (Send 204)
  ∧ registered.1 = Sent (Send 204)
  ∧ spent.1 = Sent (Json 403 (error_body 403 "Invalid hash")).
Proof.
  exact (@invitation_single_use Sample.services
           (Sample.invite (JStr "c@x.com"))
           (Sample.request "uuid-3" (Sample.credentials "c@x.com" "p3"))
           (Sample.request "uuid-3" JUndefined) new_res Sample.world1
           (JStr "c@x.com") (Sample.payload "c@x.com" "p3")
           (JStr "hashed:p3")
           eq_refl eq_refl eq_refl eq_refl eq_refl eq_refl eq_refl eq_refl
           eq_refl eq_refl eq_refl).
Defined.

Lemma registered_email_is_taken_witness :
  let registered := @registerUser Sample.services
                      (Sample.request "h-b" (Sample.credentials "b@x.com" "p2"))
                      new_res Sample.world1 in
  registered.1 = Sent (Send 204)
  ∧ (@createUserInvitation Sample.services (Sample.invite (JStr "b@x.com"))
       new_res registered.2).1
    = Sent (Json 400 (error_body 400 "Email is already taken")).
Proof.
  exact (@registered_email_is_taken Sample.services
           (Sample.request "h-b" (Sample.credentials "b@x.com" "p2"))
           (Sample.invite (JStr "b@x.com")) new_res new_res Sample.world1
           (Sample.payload "b@x.com" "p2") Sample.invitation_b
           (JStr "hashed:p2")
           eq_refl eq_refl eq_refl eq_refl eq_refl eq_refl eq_refl).
Defined.

Lemma rejected_hash_never_registers_witness :
  (@registerUser Sample.services
     (Sample.request "h-x" (Sample.credentials "b@x.com" "p2")) new_res
     Sample.world1).1 ≠ Sent (Send 204).
Proof.
  exact (@rejected_hash_never_registers Sample.services
           (Sample.request "h-x" (Sample.credentials "b@x.com" "p2"))
           new_res new_res Sample.world1 eq_refl).
Defined.

Lemma invite_twice_witness :
  let first := @createUserInvitation Sample.services
                 (Sample.invite (JStr "c@x.com")) new_res Sample.world1 in
  let second := @createUserInvitation Sample.services
                  (Sample.invite (JStr "c@x.com")) new_res first.2 in
  first.1 = Sent (Send 204)
  ∧ second.1 = Sent (Send 204)
  ∧ invitations second.2 =
      [Sample.invitation_b;
       {| inv_email := JStr "c@x.com"; inv_hash := JStr "uuid-3" |};
       {| inv_email := JStr "c@x.com"; inv_hash := JStr "uuid-4" |}]
  ∧ outbox second.2 =
      [(JStr "c@x.com", JStr "uuid-3"); (JStr "c@x.com", JStr "uuid-4")].
Proof.
  exact (@invite_twice Sample.services (Sample.invite (JStr "c@x.com"))
           new_res Sample.world1 (JStr "c@x.com")
           eq_refl eq_refl eq_refl eq_refl).
Defined.

Lemma unregistered_is_gone_witness :
  let gone := unregisterUser (Sample.as_user "a@x.com") new_res
                Sample.world1 in
  gone.1 = Sent (Send 204)
  ∧ owner gone.2 (JStr "a@x.com") = None
  ∧ (unregisterUser (Sample.as_user "a@x.com") new_res gone.2).1
    = Sent (Json 404 (error_body 404 "User not found"))
  ∧ (@signinUser Sample.services
       (Sample.request "" (Sample.credentials "a@x.com" "p1")) new_res
       gone.2).1
    = Sent (Json 401 (error_body 401 "Wrong email or password")).
Proof.
  exact (@unregistered_is_gone Sample.services (Sample.as_user "a@x.com")
           (Sample.request "" (Sample.credentials "a@x.com" "p1")) new_res
           Sample.world1 (JStr "a@x.com") (JStr "p1") Sample.alice
           eq_refl eq_refl eq_refl eq_refl eq_refl eq_refl).
Defined.

Lemma registerUser_keeps_emails_distinct_witness :
  distinct_emails
    (users (@registerUser Sample.services
              (Sample.request "h-b" (Sample.credentials "b@x.com" "p2"))
              new_res Sample.world1).2) = true.
Proof.
  exact (@registerUser_keeps_emails_distinct Sample.services
           (Sample.request "h-b" (Sample.credentials "b@x.com" "p2"))
           new_res Sample.world1 eq_refl).
Defined.

Lemma signinUser_reply_columns_witness :
  delete "password" (project (Some signin_select) Sample.alice) !! "phone"
  = None.
Proof.
  apply (@signinUser_reply_columns Sample.services
           (Sample.request "" (Sample.credentials "a@x.com" "p1")) new_res
           Sample.world1 200
           {[ "status" := JNum 200;
              "data" := JObj {[
                "user" := JObj (delete "password"
                            (project (Some signin_select) Sample.alice));
                "token" := JStr "jwt-7" ]} ]}
           {[ "user" := JObj (delete "password"
                        (project (Some signin_select) Sample.alice));
              "token" := JStr "jwt-7" ]}
           (delete "password" (project (Some signin_select) Sample.alice))
           "phone").
  - vm_compute. reflexivity.
  - vm_compute. reflexivity.
  - vm_compute. reflexivity.
  - apply (bool_decide_unpack _). vm_compute. reflexivity.
Defined.
